(** * train_darcy: the training loop of the Fourier neural operator example

    A shallow embedding of [src/train_darcy.py].  The script's own code
    (the split, the two loaders, [loss_fn], [update], the epoch loop and its
    reports) is translated function by function.  The collaborators it calls
    are modelled by their documented contracts:

    - torch's [random_split], [DataLoader], [BatchSampler] and samplers are
      written out (they decide the shape of the batches);
    - torch's random generator, the operator model ([FNO2D.apply], [init]),
      the array primitives of [jax.numpy] and [jax.grad] are interfaces
      (type classes), instantiated where a statement needs concrete numbers;
    - the reporting sink ([wandb.log], [log_wandb_image]) is a trace of events;
    - the dataset read by [MatlabDataset] is a list of (input, target) pairs.

    [FNO2D], [MatlabDataset], [collate_fn] and [log_wandb_image] belong to
    the repository but are not among the sources at hand.  Console output
    ([print], the [tqdm] progress bar) and [wandb.init] are not part of the
    model. *)

From Stdlib Require Import String.
From Stdlib Require Import List Arith Lia Bool ZArith Permutation.
From Stdlib Require Import Floats.SpecFloat.
Import ListNotations.

Set Implicit Arguments.

(** ** Exceptions and results *)

(** The Python exceptions the script can meet. *)
Inductive exn : Type :=
| ValueError
| IndexError
| UnboundLocalError.

Inductive outcome (A : Type) : Type :=
| Ok (a : A)
| Raise (e : exn).

Arguments Ok {A} a.
Arguments Raise {A} e.

Definition is_ok {A} (o : outcome A) : bool :=
  match o with Ok _ => true | Raise _ => false end.

(** ** The torch random generator *)

(** [randperm g n] is [torch.randperm(n)] drawn from generator state [g];
    it returns the permutation and the advanced state. *)
Class Rng (G : Type) : Type := {
  randperm : G -> nat -> list nat * G
}.

(** The contract of [torch.randperm]: a permutation of [0 .. n-1]. *)
Definition randperm_spec {G} `{Rng G} : Prop :=
  forall g n, Permutation (fst (randperm g n)) (seq 0 n).

(** ** torch.utils.data: random_split and Subset *)

Module Torch.

(** [itertools.accumulate(lengths)]: the running sums. *)
Fixpoint accumulate_from (acc : nat) (lengths : list nat) : list nat :=
  match lengths with
  | [] => []
  | l :: ls => (acc + l) :: accumulate_from (acc + l) ls
  end.

Definition accumulate (lengths : list nat) : list nat :=
  accumulate_from 0 lengths.

(** [l[a:b]] for [0 <= a <= b]. *)
Definition py_slice {A} (a b : nat) (l : list A) : list A :=
  firstn (b - a) (skipn a l).

(** A [Subset] of the one dataset of the script: its list of indices. *)
Definition Subset : Type := list nat.

(** [random_split(dataset, lengths)] with integer lengths, [N = len(dataset)]:
    a [ValueError] unless the lengths sum to [N]; otherwise a random
    permutation of the indices is cut into consecutive slices.  The lengths
    are sizes, as the script passes them; the reading of lengths that sum to
    one as fractions, which later versions of torch add, is not modelled. *)
Definition random_split {G} `{Rng G} (N : nat) (lengths : list nat) (g : G)
  : outcome (list Subset) * G :=
  if negb (list_sum lengths =? N) then (Raise ValueError, g)
  else
    let (indices, g') := randperm g (list_sum lengths) in
    (Ok (map (fun ol : nat * nat =>
                let (offset, len) := ol in
                py_slice (offset - len) offset indices)
             (combine (accumulate lengths) lengths)),
     g').

(** ** Samplers and DataLoader *)

(** [BatchSampler.__iter__]: indices are appended to [batch]; a full batch is
    yielded and a new one started; what remains at the end is yielded unless
    [drop_last]. *)
Fixpoint batch_sampler_loop (batch_size : nat) (drop_last : bool)
         (sampler : list nat) (batch : list nat) : list (list nat) :=
  match sampler with
  | [] =>
      if (0 <? length batch) && negb drop_last then [batch] else []
  | idx :: rest =>
      let batch' := batch ++ [idx] in
      if length batch' =? batch_size
      then batch' :: batch_sampler_loop batch_size drop_last rest []
      else batch_sampler_loop batch_size drop_last rest batch'
  end.

Definition batch_sampler (batch_size : nat) (drop_last : bool)
           (sampler : list nat) : list (list nat) :=
  batch_sampler_loop batch_size drop_last sampler [].

Record DataLoader : Type := {
  dl_dataset : Subset;
  dl_batch_size : nat;
  dl_shuffle : bool;
  dl_drop_last : bool
}.

(** The constructor refuses a batch size that is not positive.  (Whether it
    also refuses to shuffle an empty subset depends on the version of torch;
    the script reads [train_dataset[0]] at line 62 and fails there anyway.) *)
Definition DataLoader_new (dataset : Subset) (batch_size : nat)
           (shuffle drop_last : bool) : outcome DataLoader :=
  if batch_size =? 0 then Raise ValueError
  else Ok {| dl_dataset := dataset; dl_batch_size := batch_size;
             dl_shuffle := shuffle; dl_drop_last := drop_last |}.

(** The order of one pass: [RandomSampler] draws a fresh permutation of the
    positions, [SequentialSampler] yields them in order. *)
Definition sampler_order {G} `{Rng G} (loader : DataLoader) (g : G)
  : list nat * G :=
  let n := length (dl_dataset loader) in
  if dl_shuffle loader then randperm g n else (seq 0 n, g).

(** The batches of positions of one pass over the loader.  Only [randperm]
    moves the generator here: the seed torch's loader iterator also draws at
    the start of every pass is not modelled, so nothing is to be read off the
    generator state a pass returns. *)
Definition iter_batches {G} `{Rng G} (loader : DataLoader) (g : G)
  : list (list nat) * G :=
  let (order, g') := sampler_order loader g in
  (batch_sampler (dl_batch_size loader) (dl_drop_last loader) order, g').

End Torch.

(** ** Numbers *)

(** The arithmetic of the array element type, as the script and the optimizer
    use it.  A Python scalar meeting an array is taken at the array's type. *)
Class Scalar (F : Type) : Type := {
  fzero : F;
  fone : F;
  fadd : F -> F -> F;
  fsub : F -> F -> F;
  fmul : F -> F -> F;
  fdiv : F -> F -> F;
  fneg : F -> F;
  fsqrt : F -> F;
  (** [x ** n] for an integer exponent *)
  fpow : F -> Z -> F;
  (** a Python [int] promoted to the element type *)
  of_int : Z -> F
}.

(** The decimal literal [n / d]. *)
Definition decimal {F} `{Scalar F} (n d : Z) : F :=
  fdiv (of_int n) (of_int d).

(** ** The collaborators: operator model and array library *)

(** [Params] is the parameter pytree: one value per position [Idx] (the path
    of a leaf and a position inside it).  All pytrees of the run (parameters,
    gradients, moments, updates) have the structure of the parameters. *)
Definition PyTree (Idx F : Type) : Type := Idx -> F.

(** The operator model, a black box: [model.apply(params, x)] on a batch and
    [model.init_with_output(SETTINGS.nrg, x)], which returns the pair of an
    output and the initial parameters. *)
Class Model (F Field Idx : Type) : Type := {
  model_apply : PyTree Idx F -> list Field -> list Field;
  init_with_output : list Field -> list Field * PyTree Idx F
}.

(** The array primitives of line 77 and reverse-mode differentiation.  A
    batched array is the list of its slices along the leading axis. *)
Class Jax (F Field Idx : Type) : Type := {
  jnp_sub : list Field -> list Field -> list Field;
  jnp_square : list Field -> list Field;
  jnp_mean : list Field -> F;
  grad : (PyTree Idx F -> F) -> PyTree Idx F -> PyTree Idx F
}.

(** ** Settings (lines 13-28) *)

(** The fields the training loop reads.  [data_path], [nrg] and [fno.*] only
    reach the dataset and the model, which are parameters here. *)
Record Settings (F : Type) : Type := {
  n_train : nat;
  n_test : nat;
  batch_size : nat;
  learning_rate : F;
  weight_decay : F;
  n_epochs : nat
}.

Definition SETTINGS {F} `{Scalar F} : Settings F := {|
  n_train := 1000;
  n_test := 200;
  batch_size := 20;
  learning_rate := decimal 1 10000;
  weight_decay := decimal 1 10000;
  n_epochs := 100
|}.

(** ** optax: adamw and apply_updates *)

Module Optax.
Section Optax.
Context {F Idx : Type} `{Scalar F}.

Local Abbreviation Tree := (PyTree Idx F).

Definition tree_map (f : F -> F) (t : Tree) : Tree := fun i => f (t i).

Definition tree_map2 (f : F -> F -> F) (t1 t2 : Tree) : Tree :=
  fun i => f (t1 i) (t2 i).

Definition zeros_like (t : Tree) : Tree := tree_map (fun _ => fzero) t.

(** [ScaleByAdamState]; the decay and learning-rate stages keep no state. *)
Record OptState : Type := {
  count : Z;
  mu : Tree;
  nu : Tree
}.

(** The defaults of [adamw] and the two arguments the script passes. *)
Record AdamW : Type := {
  b1 : F;
  b2 : F;
  eps : F;
  eps_root : F;
  lr : F;
  wd : F
}.

Definition adamw (learning_rate weight_decay : F) : AdamW := {|
  b1 := decimal 9 10;
  b2 := decimal 999 1000;
  eps := decimal 1 100000000;
  eps_root := fzero;
  lr := learning_rate;
  wd := weight_decay
|}.

Definition init (params : Tree) : OptState := {|
  count := 0;
  mu := zeros_like params;
  nu := zeros_like params
|}.

(** [(1 - decay) * (g ** order) + decay * t] *)
Definition update_moment (updates moments : Tree) (decay : F) (order : Z)
  : Tree :=
  tree_map2
    (fun g t => fadd (fmul (fsub fone decay) (fpow g order)) (fmul decay t))
    updates moments.

(** [(1 - decay) * (g ** order) + decay * t] again: on real arrays the
    [order]-th norm of an element is its [order]-th power. *)
Definition update_moment_per_elem_norm (updates moments : Tree) (decay : F)
           (order : Z) : Tree :=
  tree_map2
    (fun g t => fadd (fmul (fsub fone decay) (fpow g order)) (fmul decay t))
    updates moments.

Definition max_int32 : Z := 2147483647.

Definition safe_int32_increment (c : Z) : Z :=
  if (c <? max_int32)%Z then (c + 1)%Z else max_int32.

(** [t / (1 - decay ** count)] *)
Definition bias_correction (moment : Tree) (decay : F) (c : Z) : Tree :=
  let bias_correction_ := fsub fone (fpow decay c) in
  tree_map (fun t => fdiv t bias_correction_) moment.

Definition scale_by_adam (o : AdamW) (updates : Tree) (state : OptState)
  : Tree * OptState :=
  let mu' := update_moment updates (mu state) (b1 o) 1 in
  let nu' := update_moment_per_elem_norm updates (nu state) (b2 o) 2 in
  let count_inc := safe_int32_increment (count state) in
  let mu_hat := bias_correction mu' (b1 o) count_inc in
  let nu_hat := bias_correction nu' (b2 o) count_inc in
  let updates' :=
    tree_map2
      (fun m v => fdiv m (fadd (fsqrt (fadd v (eps_root o))) (eps o)))
      mu_hat nu_hat in
  (updates', {| count := count_inc; mu := mu'; nu := nu' |}).

(** [g + weight_decay * p] *)
Definition add_decayed_weights (o : AdamW) (updates params : Tree) : Tree :=
  tree_map2 (fun g p => fadd g (fmul (wd o) p)) updates params.

(** [scale(-learning_rate)] *)
Definition scale_by_learning_rate (o : AdamW) (updates : Tree) : Tree :=
  tree_map (fun g => fmul (fneg (lr o)) g) updates.

(** [optimizer.update(grads, opt_state, params)]: the chain of the three
    stages. *)
Definition update (o : AdamW) (grads : Tree) (state : OptState)
           (params : Tree) : Tree * OptState :=
  let (u1, state') := scale_by_adam o grads state in
  let u2 := add_decayed_weights o u1 params in
  let u3 := scale_by_learning_rate o u2 in
  (u3, state').

(** [p + u] *)
Definition apply_updates (params updates : Tree) : Tree :=
  tree_map2 (fun p u => fadd p u) params updates.

End Optax.
Arguments OptState : clear implicits.
Arguments AdamW : clear implicits.
End Optax.

(** ** The reporting sink and the script's effects *)

(** What reaches the sink: [wandb.log({key: value}, step=step)] and
    [log_wandb_image(wandb, name, step, x, y, y_pred)]. *)
Inductive event (F Field : Type) : Type :=
| LogScalar (key : string) (value : F) (step : nat)
| LogImage (name : string) (step : nat) (x y y_pred : Field).

Arguments LogScalar {F Field} key value step.
Arguments LogImage {F Field} name step x y y_pred.

(** A computation of the script: the events it has sent to the sink, and its
    value or the exception that ended it. *)
Definition M (F Field A : Type) : Type := (list (event F Field) * outcome A)%type.

Definition ret {F Field A} (a : A) : M F Field A := ([], Ok a).

Definition bind {F Field A B} (m : M F Field A) (k : A -> M F Field B)
  : M F Field B :=
  match m with
  | (tr, Ok a) => let (tr', o) := k a in (tr ++ tr', o)
  | (tr, Raise e) => (tr, Raise e)
  end.

(** A step that sends nothing. *)
Definition lift {F Field A} (o : outcome A) : M F Field A := ([], o).

Definition emit {F Field} (e : event F Field) : M F Field unit := ([e], Ok tt).

Declare Scope script_scope.
Delimit Scope script_scope with script.
Notation "x <- m ;; k" := (bind m (fun x => k))
  (at level 61, m at next level, right associativity) : script_scope.
Notation "' p <- m ;; k" := (bind m (fun v => let p := v in k))
  (at level 61, p pattern, m at next level, right associativity) : script_scope.
Notation "m ;;; k" := (bind m (fun _ => k))
  (at level 61, right associativity) : script_scope.

Section Script.
Context {F Field Idx G : Type}.
Context `{Scalar F} `{Model F Field Idx} `{Jax F Field Idx} `{Rng G}.

Local Abbreviation Params := (PyTree Idx F).
Local Abbreviation Sample := (Field * Field)%type.
Local Abbreviation Script := (M F Field).

Local Open Scope script_scope.

(** The script's settings and the dataset read from [data_path]. *)
Variable S : Settings F.
Variable dataset : list Sample.

(** [Subset.__getitem__]: [dataset[indices[idx]]]. *)
Definition subset_getitem (subset : Torch.Subset) (idx : nat) : outcome Sample :=
  match nth_error subset idx with
  | None => Raise IndexError
  | Some i =>
      match nth_error dataset i with
      | None => Raise IndexError
      | Some s => Ok s
      end
  end.

(** [[subset[idx] for idx in batch]] *)
Fixpoint fetch_samples (subset : Torch.Subset) (batch : list nat)
  : outcome (list Sample) :=
  match batch with
  | [] => Ok []
  | idx :: rest =>
      match subset_getitem subset idx with
      | Raise e => Raise e
      | Ok s =>
          match fetch_samples subset rest with
          | Raise e => Raise e
          | Ok ss => Ok (s :: ss)
          end
      end
  end.

(** Modelled from the spec: [scripts.utils.collate_fn], which is not among the
    sources.  The pairs of a batch are stacked, so that input and target gain
    a leading batch axis. *)
Definition collate_fn (samples : list Sample) : list Field * list Field :=
  (map fst samples, map snd samples).

(** One batch of a loader: fetch the samples, then collate. *)
Definition fetch (subset : Torch.Subset) (batch : list nat)
  : outcome (list Field * list Field) :=
  match fetch_samples subset batch with
  | Raise e => Raise e
  | Ok samples => Ok (collate_fn samples)
  end.

(** [jnp.expand_dims(a, axis=0)] and [a[0]]. *)
Definition expand_dims (a : Field) : list Field := [a].

Definition getitem0 (a : list Field) : outcome Field :=
  match nth_error a 0 with
  | None => Raise IndexError
  | Some v => Ok v
  end.

(** Modelled from the spec: [scripts.utils.log_wandb_image], which is not
    among the sources.  It hands the sink one artifact: name, step, input,
    target and prediction. *)
Definition log_wandb_image (name : string) (step : nat) (x y y_pred : Field)
  : Script unit :=
  emit (LogImage name step x y y_pred).

Definition wandb_log (key : string) (value : F) (step : nat) : Script unit :=
  emit (LogScalar key value step).

(** Lines 75-77. *)
Definition loss_fn (params : Params) (x y : list Field) : F :=
  let y_pred := model_apply params x in
  jnp_mean (jnp_square (jnp_sub y y_pred)).

(** [jax.value_and_grad(f)(params, ...)]: the value and the gradient with
    respect to the first argument. *)
Definition value_and_grad (f : Params -> F) (params : Params) : F * Params :=
  (f params, grad f params).

(** Lines 79-84. *)
Definition update (optimizer : Optax.AdamW F) (params : Params)
           (opt_state : Optax.OptState F Idx) (x y : list Field)
  : Params * Optax.OptState F Idx * F :=
  let (lossval, grads) := value_and_grad (fun p => loss_fn p x y) params in
  let (updates, opt_state') := Optax.update optimizer grads opt_state params in
  let params' := Optax.apply_updates params updates in
  (params', opt_state', lossval).

(** What lines 33-72 build once and the loop only reads. *)
Record Env : Type := {
  train_dataset : Torch.Subset;
  test_dataset : Torch.Subset;
  train_loader : Torch.DataLoader;
  test_loader : Torch.DataLoader;
  optimizer : Optax.AdamW F
}.

(** The variables of [main] that the loop assigns, and the state of torch's
    generator.  [lossval] is unbound ([None]) until its first assignment.
    [avg_loss] and [val_steps] are unbound until lines 118-119, which run
    before anything reads them. *)
Record Locals : Type := {
  model_params : Params;
  opt_state : Optax.OptState F Idx;
  lossval : option F;
  step : nat;
  avg_loss : F;
  val_steps : nat;
  gen : G
}.

Definition set_gen (g : G) (st : Locals) : Locals :=
  {| model_params := model_params st; opt_state := opt_state st;
     lossval := lossval st; step := step st; avg_loss := avg_loss st;
     val_steps := val_steps st; gen := g |}.

Definition set_avg_loss (a : F) (st : Locals) : Locals :=
  {| model_params := model_params st; opt_state := opt_state st;
     lossval := lossval st; step := step st; avg_loss := a;
     val_steps := val_steps st; gen := gen st |}.

Definition set_val_steps (n : nat) (st : Locals) : Locals :=
  {| model_params := model_params st; opt_state := opt_state st;
     lossval := lossval st; step := step st; avg_loss := avg_loss st;
     val_steps := n; gen := gen st |}.

Definition set_lossval (l : F) (st : Locals) : Locals :=
  {| model_params := model_params st; opt_state := opt_state st;
     lossval := Some l; step := step st; avg_loss := avg_loss st;
     val_steps := val_steps st; gen := gen st |}.

Definition set_step (n : nat) (st : Locals) : Locals :=
  {| model_params := model_params st; opt_state := opt_state st;
     lossval := lossval st; step := n; avg_loss := avg_loss st;
     val_steps := val_steps st; gen := gen st |}.

Definition set_model (p : Params) (o : Optax.OptState F Idx) (st : Locals)
  : Locals :=
  {| model_params := p; opt_state := o;
     lossval := lossval st; step := step st; avg_loss := avg_loss st;
     val_steps := val_steps st; gen := gen st |}.

(** Lines 96-99 and 133-136: the sample at position 0 of [subset], run
    through the model with the current parameters. *)
Definition log_image (name : string) (subset : Torch.Subset) (st : Locals)
  : Script unit :=
  s <- lift (subset_getitem subset 0) ;;
  let _x := expand_dims (fst s) in
  let _y := expand_dims (snd s) in
  let _y_pred := model_apply (model_params st) _x in
  x0 <- lift (getitem0 _x) ;;
  y0 <- lift (getitem0 _y) ;;
  p0 <- lift (getitem0 _y_pred) ;;
  log_wandb_image name (step st) x0 y0 p0.

(** Lines 103-115, over the batches the training loader yields. *)
Fixpoint train_loop (env : Env) (batches : list (list nat)) (st : Locals)
  : Script Locals :=
  match batches with
  | [] => ret st
  | batch :: rest =>
      xy <- lift (fetch (train_dataset env) batch) ;;
      let '(params', opt_state', l) :=
        update (optimizer env) (model_params st) (opt_state st)
               (fst xy) (snd xy) in
      let st1 := set_lossval l (set_model params' opt_state' st) in
      wandb_log "loss" l (step st1) ;;;
      train_loop env rest (set_step (step st1 + 1) st1)
  end.

(** Lines 102-115: one pass over the training loader. *)
Definition train_pass (env : Env) (st : Locals) : Script Locals :=
  let (batches, g') := Torch.iter_batches (train_loader env) (gen st) in
  train_loop env batches (set_gen g' st).

(** Lines 121-128, over the batches the evaluation loader yields. *)
Fixpoint val_loop (env : Env) (batches : list (list nat)) (st : Locals)
  : Script Locals :=
  match batches with
  | [] => ret st
  | batch :: rest =>
      xy <- lift (fetch (test_dataset env) batch) ;;
      let l := loss_fn (model_params st) (fst xy) (snd xy) in
      let st1 := set_lossval l st in
      let st2 :=
        set_avg_loss
          (fadd (avg_loss st1) (fmul l (of_int (Z.of_nat (length (fst xy))))))
          st1 in
      val_loop env rest (set_val_steps (val_steps st2 + 1) st2)
  end.

(** Line 130. *)
Definition report_val_loss (st : Locals) : Script unit :=
  match lossval st with
  | None => lift (Raise UnboundLocalError)
  | Some l =>
      wandb_log "val_loss" (fdiv l (of_int (Z.of_nat (val_steps st)))) (step st)
  end.

(** Lines 117-130: the validation pass and its report. *)
Definition validation_pass (env : Env) (st : Locals) : Script Locals :=
  let st0 := set_val_steps 0 (set_avg_loss (of_int 0) st) in
  let (batches, g') := Torch.iter_batches (test_loader env) (gen st0) in
  st1 <- val_loop env batches (set_gen g' st0) ;;
  report_val_loss st1 ;;;
  ret st1.

(** Lines 93-136: the body of the epoch loop. *)
Definition epoch_body (env : Env) (epoch : nat) (st : Locals) : Script Locals :=
  log_image "Training image" (train_dataset env) st ;;;
  st1 <- train_pass env st ;;
  st2 <- validation_pass env st1 ;;
  log_image "Validation image" (test_dataset env) st2 ;;;
  ret st2.

(** Line 92: [for epoch in epochs]. *)
Fixpoint for_epochs (env : Env) (epochs : list nat) (st : Locals)
  : Script Locals :=
  match epochs with
  | [] => ret st
  | epoch :: rest =>
      st' <- epoch_body env epoch st ;;
      for_epochs env rest st'
  end.

(** Lines 31-72: the split, the loaders, the parameters and the optimizer. *)
Definition setup (g : G) : outcome (Env * Locals) :=
  match Torch.random_split (length dataset) [n_train S; n_test S] g with
  | (Raise e, _) => Raise e
  | (Ok [train_ds; test_ds], g1) =>
      match Torch.DataLoader_new train_ds (batch_size S) true true with
      | Raise e => Raise e
      | Ok train_ld =>
          match Torch.DataLoader_new test_ds (batch_size S) false false with
          | Raise e => Raise e
          | Ok test_ld =>
              match subset_getitem train_ds 0 with
              | Raise e => Raise e
              | Ok s =>
                  let _x := expand_dims (fst s) in
                  let params := snd (init_with_output _x) in
                  let opt := Optax.adamw (learning_rate S) (weight_decay S) in
                  Ok ({| train_dataset := train_ds; test_dataset := test_ds;
                         train_loader := train_ld; test_loader := test_ld;
                         optimizer := opt |},
                      {| model_params := params;
                         opt_state := Optax.init params;
                         lossval := None; step := 0;
                         avg_loss := of_int 0; val_steps := 0; gen := g1 |})
              end
          end
      end
  | (Ok _, _) => Raise ValueError
  end.

(** [main()]: the events sent to the sink and how the run ended. *)
Definition main (g : G) : Script Locals :=
  es <- lift (setup g) ;;
  for_epochs (fst es) (seq 0 (n_epochs S)) (snd es).

End Script.
Arguments Env : clear implicits.
Arguments Locals : clear implicits.

(** ** The arithmetic of the arrays *)

(** IEEE 754 binary32, the element type of the arrays ([float32]). *)
Module Binary32.

Definition prec : Z := 24.
Definition emax : Z := 128.

Definition float32 : Type := spec_float.

Definition of_Z (z : Z) : float32 := binary_normalize prec emax z 0 false.

Definition one : float32 := of_Z 1.

(** An integer power, by repeated multiplication. *)
Definition pow (x : float32) (n : Z) : float32 :=
  match n with
  | Z0 => one
  | Zpos p => Pos.iter (SFmul prec emax x) one p
  | Zneg p => SFdiv prec emax one (Pos.iter (SFmul prec emax x) one p)
  end.

(** Neither an infinity nor a NaN. *)
Definition is_finite (x : float32) : bool :=
  match x with
  | S754_zero _ | S754_finite _ _ _ => true
  | S754_infinity _ | S754_nan => false
  end.

Definition is_zero (x : float32) : bool :=
  match x with
  | S754_zero _ => true
  | _ => false
  end.

(** [0 / (1 - x)] is the zero it started from: the bias correction by
    [1 - x] of a zero moment leaves it zero. *)
Definition bias_ok (x : float32) : bool :=
  match SFdiv prec emax (S754_zero false) (SFsub prec emax one x) with
  | S754_zero false => true
  | _ => false
  end.

(** [n] applications of [f] from [x], checking [ok] after each: the value
    reached and whether all checks held. *)
Fixpoint run_checked {A} (f : A -> A) (ok : A -> bool) (n : nat) (x : A)
         (acc : bool) : A * bool :=
  match n with
  | O => (x, acc)
  | S n' => run_checked f ok n' (f x) (acc && ok (f x))
  end.

#[export] Instance scalar : Scalar float32 := {|
  fzero := S754_zero false;
  fone := one;
  fadd := SFadd prec emax;
  fsub := SFsub prec emax;
  fmul := SFmul prec emax;
  fdiv := SFdiv prec emax;
  fneg := SFopp;
  fsqrt := SFsqrt prec emax;
  fpow := pow;
  of_int := of_Z
|}.

End Binary32.

(** ** A small test bench

    A one-parameter linear model on one-cell grids, with elementwise array
    primitives and a central difference for the gradient (exact for this
    model, whose loss is quadratic in the parameter); and a generator whose
    [n]-th permutation is a rotation.  Used to run the script on concrete
    inputs. *)
Module Bench.
Section Bench.
Context {F : Type} `{Scalar F}.

Definition linear_apply (params : PyTree unit F) (x : list F) : list F :=
  map (fun v => fmul (params tt) v) x.

Definition sum (l : list F) : F := fold_left fadd l fzero.

Definition shift (params : PyTree unit F) (d : F) : PyTree unit F :=
  fun i => fadd (params i) d.

#[export] Instance model : Model F F unit := {|
  model_apply := linear_apply;
  init_with_output := fun x => (linear_apply (fun _ => fone) x, fun _ => fone)
|}.

#[export] Instance jax : Jax F F unit := {|
  jnp_sub := fun a b => map (fun ab => fsub (fst ab) (snd ab)) (combine a b);
  jnp_square := map (fun v => fmul v v);
  jnp_mean := fun a => fdiv (sum a) (of_int (Z.of_nat (length a)));
  grad := fun f params _ =>
    fdiv (fsub (f (shift params fone)) (f (shift params (fneg fone))))
         (of_int 2)
|}.

End Bench.

Definition rotate (k : nat) (l : list nat) : list nat :=
  skipn (k mod (length l)) l ++ firstn (k mod (length l)) l.

#[export] Instance rng : Rng nat := {|
  randperm := fun g n => (rotate g (seq 0 n), g + 1)
|}.

(** [n] samples [(i+1, k*(i+1))]: the target is [k] times the input. *)
Definition linear_data {F} `{Scalar F} (k : Z) (n : nat) : list (F * F) :=
  map (fun i => (of_int (Z.of_nat (i + 1)), of_int (k * Z.of_nat (i + 1))))
      (seq 0 n).

Definition settings {F} `{Scalar F} (ntrain ntest bs epochs : nat) : Settings F :=
  {| n_train := ntrain; n_test := ntest; batch_size := bs;
     learning_rate := learning_rate SETTINGS;
     weight_decay := weight_decay SETTINGS;
     n_epochs := epochs |}.

(** The environment [setup] builds from the subsets [train] and [test]. *)
Definition env_of {F} `{Scalar F} (S : Settings F) (train test : list nat)
  : Env F :=
  {| train_dataset := train;
     test_dataset := test;
     train_loader := Torch.Build_DataLoader train (batch_size S) true true;
     test_loader := Torch.Build_DataLoader test (batch_size S) false false;
     optimizer := Optax.adamw (learning_rate S) (weight_decay S) |}.

(** The variables of [main] when the epoch loop starts, the generator being
    in state [g]. *)
Definition start {F} `{Scalar F} (g : nat) : Locals F unit nat :=
  {| model_params := fun _ => fone;
     opt_state := Optax.init (fun _ => fone);
     lossval := None;
     step := 0;
     avg_loss := of_int 0;
     val_steps := 0;
     gen := g |}.

End Bench.

(** Concrete runs in binary32, on targets that are twice the inputs. *)
Module Runs.

#[local] Existing Instance Binary32.scalar.

(** The script's own settings, on 1200 samples. *)
Definition S0 : Settings Binary32.float32 := SETTINGS.
Definition data0 : list (Binary32.float32 * Binary32.float32) :=
  Bench.linear_data 2 1200.
Definition env0 : Env Binary32.float32 :=
  Bench.env_of S0 (seq 0 1000) (seq 1000 200).

(** Two training samples, three evaluation samples, batches of two. *)
Definition S1 : Settings Binary32.float32 := Bench.settings 2 3 2 2.
Definition data1 : list (Binary32.float32 * Binary32.float32) :=
  Bench.linear_data 2 5.
Definition env1 : Env Binary32.float32 := Bench.env_of S1 [0; 1] [2; 3; 4].

(** Two training samples and no evaluation sample. *)
Definition S2 : Settings Binary32.float32 := Bench.settings 2 0 2 1.
Definition data2 : list (Binary32.float32 * Binary32.float32) :=
  Bench.linear_data 2 2.
Definition env2 : Env Binary32.float32 := Bench.env_of S2 [0; 1] [].

(** One training sample, too few for a batch of two, and no evaluation
    sample. *)
Definition S3 : Settings Binary32.float32 := Bench.settings 1 0 2 1.
Definition data3 : list (Binary32.float32 * Binary32.float32) :=
  Bench.linear_data 2 1.
Definition env3 : Env Binary32.float32 := Bench.env_of S3 [0] [].

(** One training sample, too few for a batch of two, and two evaluation
    samples. *)
Definition S5 : Settings Binary32.float32 := Bench.settings 1 2 2 2.
Definition data5 : list (Binary32.float32 * Binary32.float32) :=
  Bench.linear_data 2 3.

(** A batch size of zero. *)
Definition S6 : Settings Binary32.float32 := Bench.settings 2 3 0 1.

(** Sizes that exceed a dataset of four samples. *)
Definition S4 : Settings Binary32.float32 := Bench.settings 3 2 2 1.
Definition data4 : list (Binary32.float32 * Binary32.float32) :=
  Bench.linear_data 2 4.

End Runs.

(** ** Reading a trace *)

(** The values and steps of the reports of the scalar metric [key], in
    order. *)
Fixpoint scalars {F Field} (key : string) (tr : list (event F Field))
  : list (F * nat) :=
  match tr with
  | [] => []
  | LogScalar k v s :: rest =>
      if String.eqb k key then (v, s) :: scalars key rest
      else scalars key rest
  | LogImage _ _ _ _ _ :: rest => scalars key rest
  end.

Definition is_scalar {F Field} (e : event F Field) : Prop :=
  match e with
  | LogScalar _ _ _ => True
  | LogImage _ _ _ _ _ => False
  end.

(** The trace of a training pass that starts at step [s] and observes the
    losses [ls]: one ["loss"] metric per batch, at consecutive steps. *)
Definition loss_events {F Field} (ls : list F) (s : nat) : list (event F Field) :=
  map (fun li : F * nat => LogScalar "loss" (fst li) (snd li))
      (combine ls (seq s (length ls))).

(** The contract of the model collaborator: a batch in, a batch of the same
    length out. *)
Definition apply_shape {F Field Idx} `{Model F Field Idx} : Prop :=
  forall (params : PyTree Idx F) (x : list Field),
    length (model_apply params x) = length x.

(** A subset whose indices all lie in the dataset. *)
Definition valid_subset {A} (dataset : list A) (subset : Torch.Subset) : Prop :=
  Forall (fun i => i < length dataset) subset.

(** The environment as lines 33-72 build it. *)
Definition env_ok {F Field} `{Scalar F} (S : Settings F)
           (dataset : list (Field * Field)) (env : Env F) : Prop :=
  valid_subset dataset (train_dataset env) /\
  valid_subset dataset (test_dataset env) /\
  length (train_dataset env) = n_train S /\
  length (test_dataset env) = n_test S /\
  0 < n_train S /\
  0 < batch_size S /\
  (train_loader env =
     Torch.Build_DataLoader (train_dataset env) (batch_size S) true true) /\
  (test_loader env =
     Torch.Build_DataLoader (test_dataset env) (batch_size S) false false) /\
  (optimizer env = Optax.adamw (learning_rate S) (weight_decay S)).

(** The batches of the evaluation loader: it is not shuffled. *)
Definition val_batches {F} (S : Settings F) : list (list nat) :=
  Torch.batch_sampler (batch_size S) false (seq 0 (n_test S)).

(** The state in which the loop of the validation pass starts
    (lines 118-119). *)
Definition val_start {F Idx G} `{Scalar F} (st : Locals F Idx G)
  : Locals F Idx G :=
  set_gen (gen st) (set_val_steps 0 (set_avg_loss (of_int 0) st)).

(** * Properties *)

Unset Implicit Arguments.

(** ** The dataset partitioner *)

Section SplitFacts.
Context {G : Type} `{Rng G}.

Lemma NoDup_app_disjoint {A} (l1 l2 : list A) (a : A) :
  NoDup (l1 ++ l2) -> In a l1 -> ~ In a l2.
Proof.
  induction l1 as [|x l1 IH]; simpl; intros ND Hin; [contradiction|].
  inversion ND as [|? ? Hnot ND']; subst.
  destruct Hin as [->|Hin].
  - intros Hin2. apply Hnot. apply in_or_app. now right.
  - now apply IH.
Qed.

Lemma randperm_length (g : G) (n : nat) :
  randperm_spec -> length (fst (randperm g n)) = n.
Proof.
  intros Hspec. rewrite (Permutation_length (Hspec g n)). apply length_seq.
Qed.

Lemma randperm_NoDup (g : G) (n : nat) :
  randperm_spec -> NoDup (fst (randperm g n)).
Proof.
  intros Hspec. apply Permutation_NoDup with (l := seq 0 n).
  - symmetry. apply Hspec.
  - apply seq_NoDup.
Qed.

Lemma randperm_bound (g : G) (n i : nat) :
  randperm_spec -> In i (fst (randperm g n)) -> i < n.
Proof.
  intros Hspec Hin.
  apply (Permutation_in _ (Hspec g n)) in Hin.
  apply in_seq in Hin. lia.
Qed.

(** The split of lines 33-36 when the two sizes add up to the length of the
    dataset: the first [a] entries of the permutation, then the next [b]. *)
Lemma random_split_pair (N a b : nat) (g : G) :
  a + b = N ->
  Torch.random_split N [a; b] g =
    (Ok [firstn a (fst (randperm g N));
         firstn b (skipn a (fst (randperm g N)))],
     snd (randperm g N)).
Proof.
  intros E. unfold Torch.random_split. simpl list_sum.
  replace (a + (b + 0)) with N by lia.
  rewrite Nat.eqb_refl. simpl negb. cbv iota.
  destruct (randperm g N) as [l g']. simpl.
  unfold Torch.py_slice.
  rewrite Nat.sub_diag, Nat.sub_0_r. simpl skipn.
  replace (a + b - b) with a by lia.
  replace (a + b - a) with b by lia.
  reflexivity.
Qed.

Lemma random_split_mismatch (N : nat) (lengths : list nat) (g : G) :
  list_sum lengths <> N ->
  Torch.random_split N lengths g = (Raise ValueError, g).
Proof.
  intros Hne. unfold Torch.random_split.
  apply Nat.eqb_neq in Hne. now rewrite Hne.
Qed.

End SplitFacts.

(** ** The batch sampler *)

Section BatchFacts.

Variable B : nat.
Hypothesis B_pos : 0 < B.

Lemma step_div (n : nat) : (B + n) / B = 1 + n / B.
Proof.
  replace (B + n) with (1 * B + n) by lia.
  apply Nat.div_add_l. lia.
Qed.

Lemma step_mod (n : nat) : (B + n) mod B = n mod B.
Proof.
  replace (B + n) with (n + 1 * B) by lia.
  apply Nat.Div0.mod_add.
Qed.

(** With [drop_last], every batch is full and there are
    [floor (total / B)] of them. *)
Lemma batch_sampler_loop_drop (sampler batch : list nat) :
  length batch < B ->
  let batches := Torch.batch_sampler_loop B true sampler batch in
  Forall (fun b => length b = B) batches /\
  length batches = (length batch + length sampler) / B.
Proof.
  revert batch. induction sampler as [|idx rest IH]; intros batch Hlt; simpl.
  - rewrite andb_false_r. split; [constructor|].
    rewrite Nat.add_0_r. symmetry. now apply Nat.div_small.
  - rewrite length_app. simpl length.
    destruct (Nat.eqb_spec (length batch + 1) B) as [E|NE].
    + destruct (IH [] B_pos) as [Hall Hlen]. simpl in Hall, Hlen. split.
      * constructor; [|exact Hall]. rewrite length_app. simpl. exact E.
      * simpl. rewrite Hlen.
        replace (length batch + S (length rest)) with (B + length rest) by lia.
        rewrite step_div. lia.
    + assert (Hlt' : length (batch ++ [idx]) < B)
        by (rewrite length_app; simpl; lia).
      destruct (IH _ Hlt') as [Hall Hlen]. split; [exact Hall|].
      rewrite Hlen, length_app. simpl. f_equal. lia.
Qed.

(** Without [drop_last], a pass over at least one index ends with a batch of
    [total mod B] elements, or [B] when that remainder is zero. *)
Lemma batch_sampler_loop_keep (sampler batch : list nat) :
  length batch < B ->
  0 < length batch + length sampler ->
  exists front b,
    Torch.batch_sampler_loop B false sampler batch = front ++ [b] /\
    length b =
      if (length batch + length sampler) mod B =? 0 then B
      else (length batch + length sampler) mod B.
Proof.
  revert batch. induction sampler as [|idx rest IH]; intros batch Hlt Hpos;
    simpl.
  - simpl in Hpos. rewrite Nat.add_0_r in Hpos |- *.
    destruct (Nat.ltb_spec 0 (length batch)) as [_|Hge]; [|lia].
    simpl. exists [], batch. split; [reflexivity|].
    rewrite Nat.mod_small by exact Hlt.
    destruct (Nat.eqb_spec (length batch) 0); [lia|reflexivity].
  - rewrite length_app. simpl length.
    replace (length batch + S (length rest))
      with (length batch + 1 + length rest) by lia.
    destruct (Nat.eqb_spec (length batch + 1) B) as [E|NE].
    + rewrite E, step_mod.
      destruct rest as [|idx' rest'].
      * simpl. exists [], (batch ++ [idx]). split; [reflexivity|].
        rewrite Nat.Div0.mod_0_l. simpl. rewrite length_app. simpl. exact E.
      * destruct (IH [] B_pos) as (front & b & Eq & Hb); [simpl; lia|].
        simpl length in Hb. simpl "+" in Hb.
        exists ((batch ++ [idx]) :: front), b. split.
        -- rewrite Eq. reflexivity.
        -- exact Hb.
    + assert (Hlt' : length (batch ++ [idx]) < B)
        by (rewrite length_app; simpl; lia).
      destruct (IH _ Hlt') as (front & b & Eq & Hb);
        [rewrite length_app; simpl; lia|].
      rewrite length_app in Hb. simpl length in Hb.
      exists front, b. split; [exact Eq|exact Hb].
Qed.

(** Every position of a batch comes from the sampler (or the pending batch). *)
Lemma batch_sampler_loop_in (drop_last : bool) (sampler batch b : list nat)
      (p : nat) :
  In b (Torch.batch_sampler_loop B drop_last sampler batch) ->
  In p b -> In p (batch ++ sampler).
Proof.
  revert batch. induction sampler as [|idx rest IH]; intros batch; simpl.
  - destruct ((0 <? length batch) && negb drop_last); simpl; [|tauto].
    intros [<-|[]] Hp. now rewrite app_nil_r.
  - destruct (length (batch ++ [idx]) =? B).
    + intros [<-|Hin] Hp.
      * apply in_app_or in Hp. apply in_or_app.
        destruct Hp as [Hp|[<-|[]]]; [now left|right; now left].
      * apply in_or_app. right. right. exact (IH [] Hin Hp).
    + intros Hin Hp. specialize (IH _ Hin Hp).
      rewrite <- app_assoc in IH. exact IH.
Qed.

(** No batch is empty. *)
Lemma batch_sampler_loop_nonempty (drop_last : bool)
      (sampler batch b : list nat) :
  In b (Torch.batch_sampler_loop B drop_last sampler batch) -> b <> [].
Proof.
  revert batch. induction sampler as [|idx rest IH]; intros batch; simpl.
  - destruct (Nat.ltb_spec 0 (length batch)); simpl; [|tauto].
    destruct drop_last; simpl; [tauto|].
    intros [<-|[]] ->. simpl in *. lia.
  - destruct (length (batch ++ [idx]) =? B).
    + intros [<-|Hin]; [now destruct batch|now apply IH in Hin].
    + intros Hin. now apply IH in Hin.
Qed.

End BatchFacts.

(** ** Fetching a batch *)

Section FetchFacts.
Context {Field : Type}.
Variable dataset : list (Field * Field).

Lemma subset_getitem_ok (subset : Torch.Subset) (p : nat) :
  valid_subset dataset subset -> p < length subset ->
  exists s, subset_getitem dataset subset p = Ok s.
Proof.
  intros Hvalid Hp. unfold subset_getitem.
  destruct (nth_error subset p) as [i|] eqn:Ei.
  - assert (Hi : i < length dataset).
    { unfold valid_subset in Hvalid. rewrite Forall_forall in Hvalid.
      apply Hvalid. eapply nth_error_In; eauto. }
    destruct (nth_error dataset i) as [s|] eqn:Es; [now exists s|].
    apply nth_error_None in Es. lia.
  - apply nth_error_None in Ei. lia.
Qed.

Lemma fetch_samples_length (subset : Torch.Subset) (batch : list nat)
      (samples : list (Field * Field)) :
  fetch_samples dataset subset batch = Ok samples ->
  length samples = length batch.
Proof.
  revert samples. induction batch as [|p rest IH]; simpl; intros samples E.
  - now inversion E.
  - destruct (subset_getitem dataset subset p); [|discriminate].
    destruct (fetch_samples dataset subset rest); [|discriminate].
    inversion E; subst. simpl. f_equal. now apply IH.
Qed.

(** A fetched batch has one input and one target per position. *)
Lemma fetch_length (subset : Torch.Subset) (batch : list nat)
      (x y : list Field) :
  fetch dataset subset batch = Ok (x, y) ->
  length x = length batch /\ length y = length batch.
Proof.
  unfold fetch, collate_fn. intros E.
  destruct (fetch_samples dataset subset batch) as [ss|] eqn:Es;
    [|discriminate].
  inversion E; subst. rewrite !length_map.
  split; eapply fetch_samples_length; eauto.
Qed.

Lemma fetch_samples_ok (subset : Torch.Subset) (batch : list nat) :
  valid_subset dataset subset ->
  (forall p, In p batch -> p < length subset) ->
  exists samples, fetch_samples dataset subset batch = Ok samples.
Proof.
  intros Hvalid. induction batch as [|p rest IH]; simpl; intros Hb.
  - now exists [].
  - destruct (subset_getitem_ok subset p Hvalid) as [s ->]; [apply Hb; now left|].
    destruct IH as [ss ->]; [intros q Hq; apply Hb; now right|].
    now exists (s :: ss).
Qed.

Lemma fetch_ok (subset : Torch.Subset) (batch : list nat) :
  valid_subset dataset subset ->
  (forall p, In p batch -> p < length subset) ->
  exists x y, fetch dataset subset batch = Ok (x, y).
Proof.
  intros Hvalid Hb. unfold fetch.
  destruct (fetch_samples_ok subset batch Hvalid Hb) as [ss ->].
  unfold collate_fn. eauto.
Qed.

End FetchFacts.

(** ** The batches of a loader *)

Section LoaderFacts.
Context {G : Type} `{Rng G}.

Lemma sampler_order_length (loader : Torch.DataLoader) (g : G) :
  randperm_spec ->
  length (fst (Torch.sampler_order loader g)) =
  length (Torch.dl_dataset loader).
Proof.
  intros Hspec. unfold Torch.sampler_order.
  destruct (Torch.dl_shuffle loader).
  - now apply randperm_length.
  - simpl. apply length_seq.
Qed.

Lemma sampler_order_bound (loader : Torch.DataLoader) (g : G) (p : nat) :
  randperm_spec ->
  In p (fst (Torch.sampler_order loader g)) ->
  p < length (Torch.dl_dataset loader).
Proof.
  intros Hspec. unfold Torch.sampler_order.
  destruct (Torch.dl_shuffle loader).
  - now apply randperm_bound.
  - simpl. intros Hin. apply in_seq in Hin. lia.
Qed.

Lemma iter_batches_fst (loader : Torch.DataLoader) (g : G) :
  fst (Torch.iter_batches loader g) =
  Torch.batch_sampler (Torch.dl_batch_size loader) (Torch.dl_drop_last loader)
                      (fst (Torch.sampler_order loader g)).
Proof.
  unfold Torch.iter_batches. now destruct (Torch.sampler_order loader g).
Qed.

(** The positions of every batch lie inside the loader's subset. *)
Lemma iter_batches_bound (loader : Torch.DataLoader) (g : G)
      (b : list nat) (p : nat) :
  randperm_spec ->
  In b (fst (Torch.iter_batches loader g)) -> In p b ->
  p < length (Torch.dl_dataset loader).
Proof.
  intros Hspec Hb Hp. rewrite iter_batches_fst in Hb.
  unfold Torch.batch_sampler in Hb.
  apply (sampler_order_bound loader g p Hspec).
  exact (batch_sampler_loop_in _ _ _ _ _ _ Hb Hp).
Qed.

(** C5.  A loader with a positive batch size [B] over [subset]: with
    [drop_last] (the training loader) every batch of a pass has exactly [B]
    elements and there are [floor (|subset| / B)] batches; without it (the
    evaluation loader) the last batch of a pass has [|subset| mod B] elements
    when that remainder is not zero, and [B] otherwise.  A batch fetched from
    a dataset has as many inputs and targets as it has positions. *)
Theorem loader_batch_sizes (subset : Torch.Subset) (B : nat)
        (shuffle : bool) (g : G) :
  randperm_spec -> 0 < B ->
  exists dropping keeping,
    Torch.DataLoader_new subset B shuffle true = Ok dropping /\
    Torch.DataLoader_new subset B shuffle false = Ok keeping /\
    Forall (fun b => length b = B) (fst (Torch.iter_batches dropping g)) /\
    length (fst (Torch.iter_batches dropping g)) = length subset / B /\
    ((subset = [] /\ fst (Torch.iter_batches keeping g) = []) \/
     (exists front b,
         fst (Torch.iter_batches keeping g) = front ++ [b] /\
         length b =
           if length subset mod B =? 0 then B else length subset mod B)) /\
    (forall Field (dataset : list (Field * Field)) b x y,
        fetch dataset subset b = Ok (x, y) ->
        length x = length b /\ length y = length b).
Proof.
  intros Hspec HB. unfold Torch.DataLoader_new.
  destruct (Nat.eqb_spec B 0) as [E|_]; [lia|].
  eexists; eexists. split; [reflexivity|]. split; [reflexivity|].
  rewrite !iter_batches_fst. simpl Torch.dl_batch_size.
  simpl Torch.dl_drop_last. unfold Torch.batch_sampler.
  split; [|split; [|split]].
  - apply (batch_sampler_loop_drop B HB). simpl. exact HB.
  - destruct (batch_sampler_loop_drop B HB
                (fst (Torch.sampler_order
                        (Torch.Build_DataLoader subset B shuffle true) g)) [])
      as [_ Hlen]; [simpl; exact HB|].
    simpl in Hlen. rewrite Hlen. now rewrite sampler_order_length.
  - pose proof (sampler_order_length
                  (Torch.Build_DataLoader subset B shuffle false) g Hspec)
      as Hlen.
    simpl Torch.dl_dataset in Hlen.
    destruct subset as [|i0 subset'] eqn:Esub.
    { left. split; [reflexivity|].
      destruct (fst (Torch.sampler_order _ g)); [reflexivity|discriminate]. }
    rewrite <- Esub in *. assert (Hne : subset <> []) by (subst; discriminate).
    right.
    destruct (batch_sampler_loop_keep B HB
                (fst (Torch.sampler_order
                        (Torch.Build_DataLoader subset B shuffle false) g)) [])
      as (front & b & Eq & Hb).
    + simpl. exact HB.
    + simpl. rewrite Hlen. destruct subset; [congruence|simpl; lia].
    + simpl in Hb. rewrite Hlen in Hb. now exists front, b.
  - intros Field dataset b x y. apply fetch_length.
Qed.

End LoaderFacts.

(** ** The training script *)

Section ScriptFacts.
Context {F Field Idx G : Type}.
Context `{Scalar F} `{Model F Field Idx} `{Jax F Field Idx} `{Rng G}.

Variable S : Settings F.
Variable dataset : list (Field * Field).

Local Abbreviation State := (Locals F Idx G).

Lemma last_cons_default {A} (l : list A) (a d : A) :
  last (a :: l) d = last l a.
Proof.
  revert a d. induction l as [|b l IH]; intros a d; [reflexivity|].
  change (last (a :: b :: l) d) with (last (b :: l) d).
  now rewrite (IH b d), (IH b a).
Qed.

Lemma firstn_valid (l : list nat) (n N : nat) :
  (forall i, In i l -> i < N) -> Forall (fun i => i < N) (firstn n l).
Proof.
  intros Hl. apply Forall_forall. intros i Hi. apply Hl.
  rewrite <- (firstn_skipn n l). apply in_or_app. now left.
Qed.

Lemma skipn_valid (l : list nat) (n N : nat) :
  (forall i, In i l -> i < N) -> Forall (fun i => i < N) (skipn n l).
Proof.
  intros Hl. apply Forall_forall. intros i Hi. apply Hl.
  rewrite <- (firstn_skipn n l). apply in_or_app. now right.
Qed.

(** What a successful [setup] has built. *)
Lemma setup_env_ok (g : G) (env : Env F) (st0 : State) :
  randperm_spec -> setup S dataset g = Ok (env, st0) ->
  env_ok S dataset env /\ n_train S + n_test S = length dataset /\
  lossval st0 = None /\ step st0 = 0.
Proof.
  intros Hspec. unfold setup.
  destruct (Nat.eq_dec (n_train S + n_test S) (length dataset)) as [E|NE].
  - rewrite (random_split_pair _ _ _ g E).
    set (perm := fst (randperm g (length dataset))).
    assert (Hlen : length perm = length dataset)
      by (apply randperm_length; exact Hspec).
    assert (Hbound : forall i, In i perm -> i < length dataset)
      by (intros i; apply randperm_bound; exact Hspec).
    unfold Torch.DataLoader_new.
    destruct (Nat.eqb_spec (batch_size S) 0) as [|HB]; [discriminate|].
    destruct (subset_getitem dataset (firstn (n_train S) perm) 0)
      as [s|] eqn:Es; [|discriminate].
    intros E0. inversion E0; subst env st0; clear E0. simpl.
    assert (Hl1 : length (firstn (n_train S) perm) = n_train S)
      by (apply firstn_length_le; lia).
    assert (Hl2 : length (firstn (n_test S) (skipn (n_train S) perm))
                  = n_test S)
      by (apply firstn_length_le; rewrite length_skipn; lia).
    unfold env_ok; simpl. repeat split; try assumption; try lia.
    + now apply firstn_valid.
    + apply firstn_valid. intros i Hi.
      assert (Hs := skipn_valid perm (n_train S) (length dataset) Hbound).
      rewrite Forall_forall in Hs. now apply Hs.
    + unfold subset_getitem in Es.
      destruct (nth_error (firstn (n_train S) perm) 0) eqn:En;
        [|discriminate].
      assert (0 < length (firstn (n_train S) perm)).
      { apply nth_error_Some. congruence. }
      lia.
  - rewrite random_split_mismatch; [discriminate|]. simpl. lia.
Qed.

(** The artifact of [log_image]: the sample at position 0 of the subset and
    the model's prediction for it under the current parameters. *)
Lemma log_image_ok (name : string) (subset : Torch.Subset) (st : State)
      (x y : Field) :
  apply_shape ->
  subset_getitem dataset subset 0 = Ok (x, y) ->
  exists p,
    getitem0 (model_apply (model_params st) (expand_dims x)) = Ok p /\
    log_image dataset name subset st = ([LogImage name (step st) x y p], Ok tt).
Proof.
  intros Hshape Eget. unfold log_image. rewrite Eget. simpl.
  specialize (Hshape (model_params st) (expand_dims x)).
  destruct (model_apply (model_params st) (expand_dims x)) as [|p rest] eqn:Ep;
    [discriminate|].
  exists p. unfold getitem0. simpl. split; reflexivity.
Qed.


(** *** The monad *)

Lemma bind_lift_ok {A B} (a : A) (k : A -> M F Field B) :
  bind (lift (Ok a)) k = k a.
Proof. unfold bind, lift. now destruct (k a). Qed.

Lemma bind_emit {B} (e : event F Field) (k : unit -> M F Field B) :
  bind (emit e) k = (e :: fst (k tt), snd (k tt)).
Proof. unfold bind, emit. now destruct (k tt). Qed.

Lemma bind_ok {A B} (m : M F Field A) (k : A -> M F Field B)
      (tr : list (event F Field)) (a : A) :
  m = (tr, Ok a) -> bind m k = (tr ++ fst (k a), snd (k a)).
Proof. intros ->. unfold bind. now destruct (k a). Qed.


(** *** The training pass *)

Lemma loss_events_cons (l : F) (ls : list F) (s : nat) :
  @loss_events F Field (l :: ls) s =
  LogScalar "loss" l s :: loss_events ls (s + 1).
Proof. unfold loss_events. simpl. now rewrite Nat.add_1_r. Qed.

(** A pass over fetchable batches sends one ["loss"] metric per batch at
    consecutive steps, advances the step counter by the number of batches and
    leaves in [lossval] the loss of the last batch. *)
Lemma train_loop_spec (env : Env F) (batches : list (list nat)) (st : State) :
  (forall b, In b batches ->
             exists x y, fetch dataset (train_dataset env) b = Ok (x, y)) ->
  exists ls st',
    train_loop dataset env batches st = (loss_events ls (step st), Ok st') /\
    length ls = length batches /\
    step st' = step st + length batches /\
    lossval st' = last (map Some ls) (lossval st) /\
    gen st' = gen st.
Proof.
  revert st. induction batches as [|b rest IH]; intros st Hfetch.
  - exists [], st. simpl. repeat split; lia.
  - destruct (Hfetch b (or_introl eq_refl)) as (x & y & Ef).
    cbn [train_loop]. rewrite Ef, bind_lift_ok. cbn [fst snd].
    destruct (update (optimizer env) (model_params st) (opt_state st) x y)
      as [[params' opt_state'] l] eqn:Eu.
    unfold wandb_log. rewrite bind_emit.
    set (st1 := set_lossval l (set_model params' opt_state' st)).
    destruct (IH (set_step (step st1 + 1) st1)) as (ls & st' & Eq & Hl & Hs & Hv & Hg).
    { intros b' Hb'. apply Hfetch. now right. }
    exists (l :: ls), st'. rewrite Eq. cbn [fst snd].
    rewrite loss_events_cons. simpl in Hs, Hv, Hg |- *.
    repeat split; try lia; try assumption.
    rewrite Hv. symmetry. apply (last_cons_default (map Some ls)).
Qed.

(** Every batch of a loader built by [setup] can be fetched. *)
Lemma loader_fetch_ok (subset : Torch.Subset) (shuffle drop_last : bool)
      (g : G) (b : list nat) :
  randperm_spec -> valid_subset dataset subset ->
  In b (fst (Torch.iter_batches
               (Torch.Build_DataLoader subset (batch_size S) shuffle drop_last)
               g)) ->
  exists x y, fetch dataset subset b = Ok (x, y).
Proof.
  intros Hspec Hvalid Hb. apply fetch_ok; [exact Hvalid|].
  intros p Hp.
  exact (iter_batches_bound _ g b p Hspec Hb Hp).
Qed.

Lemma train_pass_spec (env : Env F) (st : State) :
  randperm_spec -> env_ok S dataset env ->
  exists ls st',
    train_pass dataset env st = (loss_events ls (step st), Ok st') /\
    length ls = n_train S / batch_size S /\
    step st' = step st + length ls /\
    lossval st' = last (map Some ls) (lossval st).
Proof.
  intros Hspec (Hvt & _ & Hlt & _ & _ & HB & Etl & _ & _).
  unfold train_pass.
  destruct (Torch.iter_batches (train_loader env) (gen st))
    as [batches g'] eqn:Eb.
  assert (Ebs : batches = fst (Torch.iter_batches (train_loader env) (gen st)))
    by now rewrite Eb.
  rewrite Etl in Ebs.
  destruct (train_loop_spec env batches (set_gen g' st))
    as (ls & st' & Eq & Hl & Hs & Hv & _).
  { intros b Hb. rewrite Ebs in Hb.
    exact (loader_fetch_ok _ _ _ _ b Hspec Hvt Hb). }
  exists ls, st'. simpl in Eq, Hs, Hv. rewrite Eq.
  repeat split; try assumption; try lia.
  rewrite Hl, Ebs, iter_batches_fst. simpl.
  destruct (batch_sampler_loop_drop (batch_size S) HB
              (fst (Torch.sampler_order
                      (Torch.Build_DataLoader (train_dataset env)
                                              (batch_size S) true true)
                      (gen st))) [] HB) as [_ Hn].
  unfold Torch.batch_sampler. rewrite Hn. simpl.
  rewrite (sampler_order_length _ _ Hspec). simpl. now rewrite Hlt.
Qed.

(** *** The validation pass *)

(** The loop over fetchable batches sends nothing, touches neither the
    parameters, the optimizer state, the step counter nor the generator,
    counts the batches, and leaves in [lossval] the loss of the last one. *)
Lemma val_loop_spec (env : Env F) (batches : list (list nat)) (st : State) :
  (forall b, In b batches ->
             exists x y, fetch dataset (test_dataset env) b = Ok (x, y)) ->
  exists st',
    val_loop dataset env batches st = ([], Ok st') /\
    model_params st' = model_params st /\
    opt_state st' = opt_state st /\
    step st' = step st /\
    gen st' = gen st /\
    val_steps st' = val_steps st + length batches /\
    (batches = [] -> st' = st) /\
    (forall front b x y,
        batches = front ++ [b] ->
        fetch dataset (test_dataset env) b = Ok (x, y) ->
        lossval st' = Some (loss_fn (model_params st) x y)).
Proof.
  revert st. induction batches as [|b rest IH]; intros st Hfetch.
  - exists st. simpl. repeat split; try lia.
    intros front b x y E. now destruct front.
  - destruct (Hfetch b (or_introl eq_refl)) as (x & y & Ef).
    cbn [val_loop]. rewrite Ef, bind_lift_ok. cbn [fst snd].
    set (l := loss_fn (model_params st) x y).
    set (st2 := set_val_steps _ _).
    destruct (IH st2) as (st' & Eq & Hp & Ho & Hs & Hg & Hv & Hnil & Hlast).
    { intros b' Hb'. apply Hfetch. now right. }
    exists st'. rewrite Eq. subst st2. simpl in Hp, Ho, Hs, Hg, Hv, Hlast.
    repeat split; try assumption; try (simpl; lia); try discriminate.
    intros front b0 x0 y0 E Ef0.
    destruct rest as [|b1 rest'].
    + destruct front as [|? [|? ?]]; try discriminate.
      inversion E; subst b0. rewrite Ef in Ef0. inversion Ef0; subst x0 y0.
      rewrite (Hnil eq_refl). reflexivity.
    + destruct front as [|b2 front']; [discriminate|].
      inversion E; subst. eapply Hlast; eauto.
Qed.

(** The first batch overwrites [lossval]: its old value does not matter. *)
Lemma val_loop_forgets_lossval (env : Env F) (b : list nat)
      (rest : list (list nat)) (st st' : State) :
  model_params st' = model_params st -> opt_state st' = opt_state st ->
  step st' = step st -> avg_loss st' = avg_loss st ->
  val_steps st' = val_steps st -> gen st' = gen st ->
  val_loop dataset env (b :: rest) st' = val_loop dataset env (b :: rest) st.
Proof.
  destruct st, st'. simpl. intros; subst. cbn [val_loop].
  destruct (fetch dataset (test_dataset env) b) as [xy|e]; reflexivity.
Qed.

Lemma report_val_loss_bound (st : State) (l : F) :
  lossval st = Some l ->
  report_val_loss (Field:=Field) st =
    ([LogScalar "val_loss" (fdiv l (of_int (Z.of_nat (val_steps st))))
                (step st)], Ok tt).
Proof. unfold report_val_loss. now intros ->. Qed.

Lemma report_val_loss_unbound (st : State) :
  lossval st = None ->
  report_val_loss (Field:=Field) st = ([], Raise UnboundLocalError).
Proof. unfold report_val_loss. now intros ->. Qed.

(** The report reads [lossval], [val_steps] and [step]; not [avg_loss]. *)
Lemma report_ignores_avg_loss (a : F) (st : State) :
  report_val_loss (Field:=Field) (set_avg_loss a st) = report_val_loss st.
Proof. reflexivity. Qed.

Lemma validation_pass_unfold (env : Env F) (st : State) :
  env_ok S dataset env ->
  validation_pass dataset env st =
    bind (val_loop dataset env (val_batches S) (val_start st))
         (fun st1 => bind (report_val_loss st1) (fun _ => ret st1)).
Proof.
  intros (_ & _ & _ & Hlt & _ & _ & _ & Etl & _).
  unfold validation_pass. rewrite Etl.
  unfold Torch.iter_batches, Torch.sampler_order. simpl.
  rewrite Hlt. reflexivity.
Qed.

Lemma val_batches_fetch_ok (env : Env F) (b : list nat) :
  env_ok S dataset env -> In b (val_batches S) ->
  exists x y, fetch dataset (test_dataset env) b = Ok (x, y).
Proof.
  intros (_ & Hvt & _ & Hlt & _ & _ & _ & _ & _) Hb.
  apply fetch_ok; [exact Hvt|]. intros p Hp.
  unfold val_batches, Torch.batch_sampler in Hb.
  pose proof (batch_sampler_loop_in _ _ _ _ _ _ Hb Hp) as Hin.
  simpl in Hin. apply in_seq in Hin. lia.
Qed.

Lemma val_batches_empty : n_test S = 0 -> (val_batches S) = [].
Proof. unfold val_batches. now intros ->. Qed.

Lemma val_batches_last :
  0 < batch_size S -> 0 < n_test S ->
  exists front b, (val_batches S) = front ++ [b].
Proof.
  intros HB Hn.
  destruct (batch_sampler_loop_keep (batch_size S) HB (seq 0 (n_test S)) [])
    as (front & b & Eq & _); [exact HB|simpl; rewrite length_seq; lia|].
  now exists front, b.
Qed.

Lemma validation_pass_spec (env : Env F) (st : State) :
  env_ok S dataset env ->
  exists st1,
    val_loop dataset env (val_batches S) (val_start st) = ([], Ok st1) /\
    validation_pass dataset env st =
      bind (report_val_loss st1) (fun _ => ret st1) /\
    model_params st1 = model_params st /\
    opt_state st1 = opt_state st /\
    step st1 = step st /\
    gen st1 = gen st /\
    val_steps st1 = length (val_batches S) /\
    (val_batches S = [] -> st1 = val_start st) /\
    (forall front b x y,
        val_batches S = front ++ [b] ->
        fetch dataset (test_dataset env) b = Ok (x, y) ->
        lossval st1 = Some (loss_fn (model_params st) x y)).
Proof.
  intros Hok.
  destruct (val_loop_spec env (val_batches S) (val_start st))
    as (st1 & Eq & Hp & Ho & Hs & Hg & Hv & Hnil & Hlast).
  { intros b Hb. now apply val_batches_fetch_ok. }
  exists st1. rewrite (validation_pass_unfold env st Hok).
  rewrite (bind_ok _ _ _ _ Eq). simpl app.
  simpl in Hp, Ho, Hs, Hg, Hv, Hlast.
  repeat split; try assumption.
  now destruct (bind (report_val_loss st1) (fun _ => ret st1)).
Qed.

Lemma report_then_ret (st : State) (l : F) :
  lossval st = Some l ->
  bind (report_val_loss st) (fun _ => ret st) =
    ([LogScalar (Field:=Field) "val_loss"
                (fdiv l (of_int (Z.of_nat (val_steps st)))) (step st)],
     Ok st).
Proof. intros E. now rewrite (report_val_loss_bound st l E). Qed.

(** *** One epoch *)

Lemma epoch_body_unfold (env : Env F) (epoch : nat) (st : State) :
  epoch_body dataset env epoch st =
    bind (log_image dataset "Training image" (train_dataset env) st)
      (fun _ =>
         bind (train_pass dataset env st)
           (fun st1 =>
              bind (validation_pass dataset env st1)
                (fun st2 =>
                   bind (log_image dataset "Validation image"
                                   (test_dataset env) st2)
                     (fun _ => ret st2)))).
Proof. reflexivity. Qed.

Lemma first_sample (subset : Torch.Subset) :
  valid_subset dataset subset -> 0 < length subset ->
  exists x y, subset_getitem dataset subset 0 = Ok (x, y).
Proof.
  intros Hv Hl. destruct (subset_getitem_ok dataset subset 0 Hv Hl) as [[x y] E].
  eauto.
Qed.

(** The validation pass over a non-empty evaluation subset. *)
Lemma validation_pass_nonempty (env : Env F) (st : State) :
  env_ok S dataset env -> 0 < n_test S ->
  exists front b x y st1,
    val_batches S = front ++ [b] /\
    fetch dataset (test_dataset env) b = Ok (x, y) /\
    validation_pass dataset env st =
      ([LogScalar "val_loss"
                  (fdiv (loss_fn (model_params st) x y)
                        (of_int (Z.of_nat (length (val_batches S)))))
                  (step st)], Ok st1) /\
    model_params st1 = model_params st /\
    opt_state st1 = opt_state st /\
    step st1 = step st.
Proof.
  intros Hok Hn.
  pose proof Hok as (_ & _ & _ & _ & _ & HB & _).
  destruct (validation_pass_spec env st Hok)
    as (st1 & _ & Evp & Hp & Ho & Hs & _ & Hvs & _ & Hlast).
  destruct (val_batches_last HB Hn) as (front & b & Eb).
  destruct (val_batches_fetch_ok env b Hok) as (x & y & Ef).
  { rewrite Eb. apply in_or_app. right. now left. }
  pose proof (Hlast front b x y Eb Ef) as Hlv.
  rewrite (report_then_ret st1 _ Hlv), Hvs, Hs in Evp.
  exists front, b, x, y, st1. repeat split; assumption.
Qed.

(** The validation pass over an empty evaluation subset, with [lossval]
    bound: the stale value is divided by a count of zero. *)
Lemma validation_pass_empty (env : Env F) (st : State) (l : F) :
  env_ok S dataset env -> n_test S = 0 -> lossval st = Some l ->
  exists st1,
    validation_pass dataset env st =
      ([LogScalar "val_loss" (fdiv l (of_int 0)) (step st)], Ok st1) /\
    model_params st1 = model_params st /\
    opt_state st1 = opt_state st /\
    step st1 = step st.
Proof.
  intros Hok Hn Hl.
  destruct (validation_pass_spec env st Hok)
    as (st1 & _ & Evp & Hp & Ho & Hs & _ & Hvs & Hnil & _).
  pose proof (Hnil (val_batches_empty Hn)) as E1.
  assert (Hlv : lossval st1 = Some l) by (rewrite E1; exact Hl).
  rewrite (report_then_ret st1 _ Hlv), Hvs, Hs in Evp.
  rewrite (val_batches_empty Hn) in Evp. simpl in Evp.
  exists st1. repeat split; assumption.
Qed.

(** An epoch whose passes succeed and whose subsets have a first sample. *)
Lemma epoch_body_compose (env : Env F) (epoch : nat) (st st1 st2 : State)
      (tr_t tr_v : list (event F Field)) (xt yt xv yv : Field) :
  apply_shape ->
  subset_getitem dataset (train_dataset env) 0 = Ok (xt, yt) ->
  subset_getitem dataset (test_dataset env) 0 = Ok (xv, yv) ->
  train_pass dataset env st = (tr_t, Ok st1) ->
  validation_pass dataset env st1 = (tr_v, Ok st2) ->
  exists pt pv,
    epoch_body dataset env epoch st =
      (LogImage "Training image" (step st) xt yt pt
         :: tr_t ++ tr_v
         ++ [LogImage "Validation image" (step st2) xv yv pv],
       Ok st2).
Proof.
  intros Hshape Ext Exv Etp Evp.
  destruct (log_image_ok "Training image" _ st xt yt Hshape Ext)
    as (pt & _ & Elt).
  destruct (log_image_ok "Validation image" _ st2 xv yv Hshape Exv)
    as (pv & _ & Elv).
  exists pt, pv. rewrite epoch_body_unfold.
  rewrite (bind_ok _ _ _ _ Elt), (bind_ok _ _ _ _ Etp), (bind_ok _ _ _ _ Evp),
    (bind_ok _ _ _ _ Elv).
  reflexivity.
Qed.

(** An epoch whose evaluation subset is empty stops at line 133, after the
    report of line 130. *)
Lemma epoch_body_no_eval_sample (env : Env F) (epoch : nat)
      (st st1 st2 : State) (tr_t tr_v : list (event F Field))
      (xt yt : Field) :
  apply_shape ->
  subset_getitem dataset (train_dataset env) 0 = Ok (xt, yt) ->
  test_dataset env = [] ->
  train_pass dataset env st = (tr_t, Ok st1) ->
  validation_pass dataset env st1 = (tr_v, Ok st2) ->
  exists pt,
    epoch_body dataset env epoch st =
      (LogImage "Training image" (step st) xt yt pt :: tr_t ++ tr_v,
       Raise IndexError).
Proof.
  intros Hshape Ext Ete Etp Evp.
  destruct (log_image_ok "Training image" _ st xt yt Hshape Ext)
    as (pt & _ & Elt).
  exists pt. rewrite epoch_body_unfold.
  rewrite (bind_ok _ _ _ _ Elt), (bind_ok _ _ _ _ Etp), (bind_ok _ _ _ _ Evp).
  unfold log_image, subset_getitem. rewrite Ete. simpl.
  now rewrite app_nil_r.
Qed.

(** *** Scalars of a trace *)

Lemma scalars_app (key : string) (tr1 tr2 : list (event F Field)) :
  scalars key (tr1 ++ tr2) = scalars key tr1 ++ scalars key tr2.
Proof.
  induction tr1 as [|[k v s|n s x y p] tr1 IH]; simpl; [reflexivity| |exact IH].
  destruct (String.eqb k key); simpl; now rewrite IH.
Qed.

Lemma scalars_loss_events (ls : list F) (s : nat) :
  scalars "loss" (@loss_events F Field ls s) = combine ls (seq s (length ls)).
Proof.
  revert s. induction ls as [|l ls IH]; intros s; [reflexivity|].
  rewrite loss_events_cons. simpl. now rewrite IH, Nat.add_1_r.
Qed.

Lemma scalars_loss_events_other (ls : list F) (s : nat) :
  scalars "val_loss" (@loss_events F Field ls s) = [].
Proof.
  revert s. induction ls as [|l ls IH]; intros s; [reflexivity|].
  rewrite loss_events_cons. simpl. apply IH.
Qed.

(** *** Which events a pass can send *)








(** C4.  When the two requested sizes exceed the length of the dataset,
    [random_split] raises ([ValueError], the script's configuration error)
    and the run ends there, before anything is sent to the sink. *)
Theorem split_larger_than_dataset_fails (g : G) :
  n_train S + n_test S > length dataset ->
  Torch.random_split (length dataset) [n_train S; n_test S] g
    = (Raise ValueError, g) /\
  main S dataset g = ([], Raise ValueError).
Proof.
  intros Hgt.
  assert (E : Torch.random_split (length dataset) [n_train S; n_test S] g
              = (Raise ValueError, g)).
  { apply random_split_mismatch. simpl. lia. }
  split; [exact E|].
  unfold main, setup. rewrite E. reflexivity.
Qed.

(** C2.  The update step evaluates the loss, the mean of the squared
    elementwise differences between target and prediction, at the parameters
    it is given; differentiates that same loss at those parameters; hands the
    gradient, the optimizer state and the parameters to the optimizer; and
    returns the parameters moved by the optimizer's updates, the optimizer's
    new state (its count advanced by one) and the loss before the move. *)
Theorem update_step (o : Optax.AdamW F) (params : PyTree Idx F)
        (opt_state : Optax.OptState F Idx) (x y : list Field) :
  let loss := fun p => jnp_mean (jnp_square (jnp_sub y (model_apply p x))) in
  let grads := grad loss params in
  let stepped := Optax.update o grads opt_state params in
  update o params opt_state x y =
    (Optax.apply_updates params (fst stepped), snd stepped, loss params) /\
  loss params = loss_fn params x y /\
  Optax.count (snd stepped) =
    Optax.safe_int32_increment (Optax.count opt_state).
Proof.
  intros loss grads stepped. unfold update, value_and_grad.
  change (grad (fun p => loss_fn p x y) params) with grads.
  fold stepped. split; [|split].
  - now destruct stepped.
  - reflexivity.
  - reflexivity.
Qed.

Lemma test_loader_batches (env : Env F) (g : G) :
  env_ok S dataset env ->
  Torch.iter_batches (test_loader env) g = (val_batches S, g).
Proof.
  intros (_ & _ & _ & Hlt & _ & _ & _ & Etl & _). rewrite Etl.
  unfold Torch.iter_batches, Torch.sampler_order. simpl. now rewrite Hlt.
Qed.

(** C1.  In every epoch (whatever the state [st] it starts in) with a
    non-empty evaluation subset, the one ["val_loss"] metric of the epoch is
    the loss of the last batch of the evaluation loader, at the parameters
    the training pass left, divided by the number of batches of that loader.
    The report reads [lossval], [val_steps] and [step]: replacing [avg_loss]
    by any value leaves it unchanged. *)
Theorem val_loss_is_last_batch_loss_over_batches
        (g : G) (env : Env F) (st0 : State) (epoch : nat) (st : State) :
  randperm_spec -> apply_shape ->
  setup S dataset g = Ok (env, st0) ->
  0 < n_test S ->
  exists front b x y tr st1 st2,
    snd (train_pass dataset env st) = Ok st1 /\
    fst (Torch.iter_batches (test_loader env) (gen st1)) = front ++ [b] /\
    fetch dataset (test_dataset env) b = Ok (x, y) /\
    epoch_body dataset env epoch st = (tr, Ok st2) /\
    scalars "val_loss" tr =
      [(fdiv (loss_fn (model_params st1) x y)
             (of_int (Z.of_nat (length (front ++ [b])))),
        step st1)] /\
    (forall a : F,
        report_val_loss (Field:=Field) (set_avg_loss a st2) =
        report_val_loss st2).
Proof.
  intros Hspec Hshape Hsetup Hn.
  destruct (setup_env_ok g env st0 Hspec Hsetup) as (Hok & _).
  pose proof Hok as (Hvt & Hve & Hlt & Hle & Hnt & HB & _).
  destruct (train_pass_spec env st Hspec Hok) as (ls & st1 & Etp & _).
  destruct (validation_pass_nonempty env st1 Hok Hn)
    as (front & b & x & y & st2 & Eb & Ef & Evp & _).
  destruct (first_sample (train_dataset env) Hvt) as (xt & yt & Ext); [lia|].
  destruct (first_sample (test_dataset env) Hve) as (xv & yv & Exv); [lia|].
  destruct (epoch_body_compose env epoch st st1 st2 _ _ xt yt xv yv
                               Hshape Ext Exv Etp Evp) as (pt & pv & Eep).
  exists front, b, x, y. eexists. exists st1, st2.
  split; [now rewrite Etp|].
  split; [now rewrite (test_loader_batches env _ Hok)|].
  split; [exact Ef|]. split; [exact Eep|]. split.
  - cbn [scalars]. rewrite scalars_app, scalars_loss_events_other.
    simpl. now rewrite Eb.
  - intros a. apply report_ignores_avg_loss.
Qed.

(** A validation pass that can report (the evaluation subset is not empty, or
    [lossval] is bound) leaves the parameters, the optimizer state and the
    step counter as they were; run again from the state it returned, it sends
    the same report and returns that same state. *)
Lemma validation_pass_repeat
      (env : Env F) (st : State) :
  randperm_spec ->
  env_ok S dataset env ->
  0 < n_test S \/ lossval st <> None ->
  exists tr st1,
    validation_pass dataset env st = (tr, Ok st1) /\
    model_params st1 = model_params st /\
    opt_state st1 = opt_state st /\
    step st1 = step st /\
    validation_pass dataset env st1 = (tr, Ok st1).
Proof.
  intros Hspec Hok Hcan.
  pose proof Hok as (_ & _ & _ & _ & _ & HB & _).
  destruct (validation_pass_spec env st Hok)
    as (st1 & Eloop & Evp & Hp & Ho & Hs & Hg & Hvs & Hnil & Hlast).
  assert (Hbound : exists l, lossval st1 = Some l).
  { destruct (val_batches S) as [|b0 rest0] eqn:Evb.
    - rewrite (Hnil eq_refl). simpl.
      destruct Hcan as [Hn|Hl].
      + destruct (val_batches_last HB Hn) as (front & b & E).
        rewrite Evb in E. now destruct front.
      + destruct (lossval st) as [l|]; [now exists l|congruence].
    - destruct (@exists_last _ (b0 :: rest0)) as (front & b & E);
        [discriminate|].
      destruct (val_batches_fetch_ok env b Hok) as (x & y & Ef).
      { rewrite Evb, E. apply in_or_app. right. now left. }
      rewrite <- Evb in Hlast. rewrite Evb, E in Hlast.
      eexists. exact (Hlast front b x y eq_refl Ef). }
  destruct Hbound as [l Hl].
  rewrite (report_then_ret st1 l Hl) in Evp.
  eexists. exists st1. split; [exact Evp|].
  repeat split; try assumption.
  rewrite (validation_pass_unfold env st1 Hok).
  assert (Eloop' : val_loop dataset env (val_batches S) (val_start st1)
                   = ([], Ok st1)).
  { destruct (val_batches S) as [|b0 rest0] eqn:Evb.
    - rewrite (Hnil eq_refl). reflexivity.
    - rewrite <- Eloop. apply val_loop_forgets_lossval; simpl; congruence. }
  rewrite (bind_ok _ _ _ _ Eloop'). simpl app.
  rewrite (report_then_ret st1 l Hl). reflexivity.
Qed.

(** C7.  A validation pass that returns leaves the parameters, the optimizer
    state and the step counter as they were, and sends its one report; run
    again from the state it returned, it sends the same report and returns
    that same state.  The only pass that does not return is the one that
    finds no batch and [lossval] unbound: it raises before reporting. *)
Theorem validation_pass_idempotent
        (g : G) (env : Env F) (st0 : State) (st : State) :
  randperm_spec ->
  setup S dataset g = Ok (env, st0) ->
  exists tr o,
    validation_pass dataset env st = (tr, o) /\
    match o with
    | Ok st1 =>
        model_params st1 = model_params st /\
        opt_state st1 = opt_state st /\
        step st1 = step st /\
        validation_pass dataset env st1 = (tr, Ok st1)
    | Raise e =>
        e = UnboundLocalError /\ tr = [] /\
        n_test S = 0 /\ lossval st = None
    end.
Proof.
  intros Hspec Hsetup.
  destruct (setup_env_ok g env st0 Hspec Hsetup) as (Hok & _).
  destruct (Nat.eq_dec (n_test S) 0) as [Hz|Hnz].
  - destruct (lossval st) as [l|] eqn:El.
    + destruct (validation_pass_repeat env st Hspec Hok)
        as (tr & st1 & E1 & Hfields); [right; congruence|].
      exists tr, (Ok st1). split; [exact E1|exact Hfields].
    + destruct (validation_pass_spec env st Hok)
        as (st1 & _ & Evp & _ & _ & _ & _ & _ & Hnil & _).
      assert (Hl1 : lossval st1 = None).
      { rewrite (Hnil (val_batches_empty Hz)). exact El. }
      rewrite (report_val_loss_unbound st1 Hl1) in Evp.
      exists [], (Raise UnboundLocalError). split; [exact Evp|].
      repeat split; assumption.
  - destruct (validation_pass_repeat env st Hspec Hok)
      as (tr & st1 & E1 & Hfields); [left; lia|].
    exists tr, (Ok st1). split; [exact E1|exact Hfields].
Qed.


(** An epoch with a training batch and an empty evaluation subset: the stale
    loss of the last training batch is divided by a count of zero and
    reported, and the run stops at the validation image. *)
Lemma epoch_without_eval_batches (env : Env F) (epoch : nat) (st : State) :
  randperm_spec -> apply_shape -> env_ok S dataset env ->
  n_test S = 0 -> batch_size S <= n_train S ->
  exists ls l st1 xt yt pt,
    val_batches S = [] /\
    train_pass dataset env st = (loss_events (ls ++ [l]) (step st), Ok st1) /\
    lossval st1 = Some l /\
    epoch_body dataset env epoch st =
      (LogImage "Training image" (step st) xt yt pt
         :: loss_events (ls ++ [l]) (step st)
         ++ [LogScalar "val_loss" (fdiv l (of_int 0)) (step st1)],
       Raise IndexError).
Proof.
  intros Hspec Hshape Hok Hn Hbatch.
  pose proof Hok as (Hvt & Hve & Hlt & Hle & Hnt & HB & _).
  destruct (first_sample (train_dataset env) Hvt) as (xt & yt & Ext); [lia|].
  destruct (train_pass_spec env st Hspec Hok)
    as (ls0 & st1 & Etp & Hlen & _ & Hlv).
  assert (Hpos : 0 < length ls0).
  { rewrite Hlen. apply Nat.div_str_pos. lia. }
  destruct (@exists_last _ ls0) as (ls & l & E).
  { intros ->. simpl in Hpos. lia. }
  subst ls0.
  assert (Hl : lossval st1 = Some l).
  { rewrite Hlv, map_app. simpl. apply last_last. }
  destruct (validation_pass_empty env st1 l Hok Hn Hl) as (st2 & Evp & _).
  assert (Ete : test_dataset env = []).
  { destruct (test_dataset env); [reflexivity|simpl in Hle; lia]. }
  destruct (epoch_body_no_eval_sample env epoch st st1 st2 _ _ xt yt
                                      Hshape Ext Ete Etp Evp) as (pt & Eep).
  exists ls, l, st1, xt, yt, pt.
  split; [now apply val_batches_empty|].
  split; [exact Etp|]. split; [exact Hl|exact Eep].
Qed.

End ScriptFacts.

(** ** Division by a count of zero, in binary32 *)

Section Float32Facts.
Context {Field Idx G : Type}.
Context `{Model Binary32.float32 Field Idx} `{Jax Binary32.float32 Field Idx}.
Context `{Rng G}.

Local Existing Instance Binary32.scalar.

Lemma div_by_zero_count_not_finite (l : Binary32.float32) :
  Binary32.is_finite (fdiv l (of_int 0)) = false.
Proof. destruct l as [s|s| |s m e]; try destruct s; reflexivity. Qed.

(** C9, amended.  An epoch of a run whose evaluation subset is empty and
    whose training loader yields at least one batch: the evaluation loader
    yields no batch; [lossval] still holds the loss of the last training batch; the
    ["val_loss"] metric is that loss divided by a count of zero, which in
    binary32 is an infinity or a NaN; it is reported, at the current step,
    and the epoch then stops at the validation image. *)
Theorem stale_loss_over_zero_batches
        (S : Settings Binary32.float32) (dataset : list (Field * Field))
        (g : G) (env : Env Binary32.float32)
        (st0 : Locals Binary32.float32 Idx G)
        (epoch : nat) (st : Locals Binary32.float32 Idx G) :
  randperm_spec -> apply_shape ->
  setup S dataset g = Ok (env, st0) ->
  n_test S = 0 ->
  batch_size S <= n_train S ->
  exists ls l st1 xt yt pt,
    train_pass dataset env st = (loss_events (ls ++ [l]) (step st), Ok st1) /\
    fst (Torch.iter_batches (test_loader env) (gen st1)) = [] /\
    lossval st1 = Some l /\
    epoch_body dataset env epoch st =
      (LogImage "Training image" (step st) xt yt pt
         :: loss_events (ls ++ [l]) (step st)
         ++ [LogScalar "val_loss" (fdiv l (of_int 0)) (step st1)],
       Raise IndexError) /\
    Binary32.is_finite (fdiv l (of_int 0)) = false.
Proof.
  intros Hspec Hshape Hsetup Hn Hbatch.
  destruct (setup_env_ok S dataset g env st0 Hspec Hsetup) as (Hok & _).
  destruct (epoch_without_eval_batches S dataset env epoch st
                                       Hspec Hshape Hok Hn Hbatch)
    as (ls & l & st1 & xt & yt & pt & Evb & Etp & Hl & Eep).
  exists ls, l, st1, xt, yt, pt.
  split; [exact Etp|].
  split; [now rewrite (test_loader_batches S dataset env _ Hok)|].
  split; [exact Hl|]. split; [exact Eep|].
  apply div_by_zero_count_not_finite.
Qed.

End Float32Facts.

(** ** Decoupled weight decay, in binary32 *)

Section IterateFacts.
Context {A : Type}.
Variable f : A -> A.
Variable ok : A -> bool.

Local Abbreviation iterate := (fun n x => Nat.iter n f x).

Lemma iterate_shift (n : nat) (x : A) : iterate n (f x) = f (iterate n x).
Proof. induction n as [|n IH]; simpl; [reflexivity|now rewrite IH]. Qed.

Lemma iterate_add (a b : nat) (x : A) :
  iterate (a + b) x = iterate a (iterate b x).
Proof. induction a as [|a IH]; simpl; [reflexivity|now rewrite IH]. Qed.

Lemma iterate_fixed (n : nat) (x : A) : f x = x -> iterate n x = x.
Proof. intros Hx. induction n as [|n IH]; simpl; [reflexivity|]. now rewrite IH. Qed.

Lemma run_checked_spec (n : nat) (x : A) (acc : bool) :
  fst (Binary32.run_checked f ok n x acc) = iterate n x /\
  (snd (Binary32.run_checked f ok n x acc) = true ->
   acc = true /\ forall k, 1 <= k <= n -> ok (iterate k x) = true).
Proof.
  revert x acc. induction n as [|n IH]; intros x acc; simpl.
  - split; [reflexivity|]. intros ->. split; [reflexivity|]. intros k Hk. lia.
  - destruct (IH (f x) (acc && ok (f x))) as [Hfst Hsnd]. split.
    + rewrite Hfst. apply iterate_shift.
    + intros Ht. destruct (Hsnd Ht) as [Hacc Hall].
      apply andb_prop in Hacc. destruct Hacc as [Hacc Hok].
      split; [exact Hacc|]. intros k Hk.
      destruct k as [|[|k]]; [lia|exact Hok|].
      change (ok (f (Nat.iter (S k) f x)) = true).
      rewrite <- iterate_shift. apply Hall. lia.
Qed.

(** If the checks hold along the first [N] applications and the [N]-th value
    is a fixed point, they hold along all applications. *)
Lemma checked_forever (N : nat) (x0 xN : A) :
  1 <= N ->
  Binary32.run_checked f ok N x0 true = (xN, true) ->
  f xN = xN ->
  forall n, 1 <= n -> ok (iterate n x0) = true.
Proof.
  intros HN Hrun Hfix n Hn.
  destruct (run_checked_spec N x0 true) as [Hfst Hsnd].
  rewrite Hrun in Hfst, Hsnd. simpl in Hfst, Hsnd.
  destruct (Hsnd eq_refl) as [_ Hall].
  destruct (Nat.le_gt_cases n N) as [Hle|Hgt].
  - apply Hall. lia.
  - replace n with ((n - N) + N) by lia.
    rewrite iterate_add, <- Hfst, (iterate_fixed _ _ Hfix).
    rewrite Hfst. apply Hall. lia.
Qed.

End IterateFacts.

Section Float32DecayFacts.
Context {Field Idx : Type}.
Context `{Model Binary32.float32 Field Idx} `{Jax Binary32.float32 Field Idx}.

Local Existing Instance Binary32.scalar.

(** The powers of the first decay rate, by repeated multiplication, reach a
    fixed point after 964 steps; the bias correction is sound at each. *)
Lemma first_rate_run :
  Binary32.run_checked (fmul (decimal 9 10)) Binary32.bias_ok
                       (Pos.to_nat 964) fone true
  = (S754_finite false 4 (-149), true).
Proof. vm_compute. reflexivity. Qed.

(** The powers of the second decay rate reach theirs after 96901 steps. *)
Lemma second_rate_run :
  Binary32.run_checked (fmul (decimal 999 1000)) Binary32.bias_ok
                       (Pos.to_nat 96901) fone true
  = (S754_finite false 500 (-149), true).
Proof. vm_compute. reflexivity. Qed.

Lemma bias_ok_zero (x : Binary32.float32) :
  Binary32.bias_ok x = true -> fdiv fzero (fsub fone x) = fzero.
Proof.
  unfold Binary32.bias_ok.
  change (fdiv fzero (fsub fone x))
    with (SFdiv Binary32.prec Binary32.emax (S754_zero false)
                (SFsub Binary32.prec Binary32.emax Binary32.one x)).
  destruct (SFdiv _ _ _ _) as [[|]| | |]; try discriminate. reflexivity.
Qed.

Lemma first_rate_bias (p : positive) :
  fdiv fzero (fsub fone (fpow (decimal 9 10) (Zpos p))) = fzero.
Proof.
  apply bias_ok_zero.
  change (fpow (decimal 9 10) (Zpos p))
    with (Pos.iter (fmul (decimal 9 10)) fone p).
  rewrite Pos2Nat.inj_iter.
  change (Binary32.bias_ok
            (Nat.iter (Pos.to_nat p) (fmul (decimal 9 10)) fone) = true).
  apply (checked_forever _ _ (Pos.to_nat 964) fone _
           (Pos2Nat.is_pos 964) first_rate_run).
  - vm_compute. reflexivity.
  - apply Pos2Nat.is_pos.
Qed.

Lemma second_rate_bias (p : positive) :
  fdiv fzero (fsub fone (fpow (decimal 999 1000) (Zpos p))) = fzero.
Proof.
  apply bias_ok_zero.
  change (fpow (decimal 999 1000) (Zpos p))
    with (Pos.iter (fmul (decimal 999 1000)) fone p).
  rewrite Pos2Nat.inj_iter.
  change (Binary32.bias_ok
            (Nat.iter (Pos.to_nat p) (fmul (decimal 999 1000)) fone) = true).
  apply (checked_forever _ _ (Pos.to_nat 96901) fone _
           (Pos2Nat.is_pos 96901) second_rate_run).
  - vm_compute. reflexivity.
  - apply Pos2Nat.is_pos.
Qed.

Lemma first_moment_of_zero (g : Binary32.float32) :
  Binary32.is_zero g = true ->
  fadd (fmul (fsub fone (decimal 9 10)) (fpow g 1)) (fmul (decimal 9 10) fzero)
  = fzero.
Proof. destruct g as [[|]| | |]; try discriminate; intros _; vm_compute; reflexivity. Qed.

Lemma second_moment_of_zero (g : Binary32.float32) :
  Binary32.is_zero g = true ->
  fadd (fmul (fsub fone (decimal 999 1000)) (fpow g 2))
       (fmul (decimal 999 1000) fzero)
  = fzero.
Proof. destruct g as [[|]| | |]; try discriminate; intros _; vm_compute; reflexivity. Qed.

Lemma direction_of_zero :
  fdiv fzero (fadd (fsqrt (fadd fzero fzero)) (decimal 1 100000000)) = fzero.
Proof. vm_compute. reflexivity. Qed.

Lemma count_after_step (c : Z) :
  (0 <= c)%Z -> exists p, Optax.safe_int32_increment c = Zpos p.
Proof.
  intros Hc. unfold Optax.safe_int32_increment, Optax.max_int32.
  destruct (Z.ltb_spec c 2147483647).
  - destruct (c + 1)%Z as [|p|p] eqn:E; try lia. now exists p.
  - now eexists.
Qed.

(** The gradient stage on a zero gradient and zero moments yields exactly
    zero. *)
Lemma adam_direction_zero (lr wd : Binary32.float32)
      (grads : PyTree Idx Binary32.float32)
      (state : Optax.OptState Binary32.float32 Idx) (j : Idx) :
  (0 <= Optax.count state)%Z ->
  Optax.mu state j = fzero ->
  Optax.nu state j = fzero ->
  Binary32.is_zero (grads j) = true ->
  fst (Optax.scale_by_adam (Optax.adamw lr wd) grads state) j = fzero.
Proof.
  intros Hc Hmu Hnu Hg.
  destruct (count_after_step _ Hc) as [p Hp].
  unfold Optax.scale_by_adam, Optax.bias_correction, Optax.update_moment,
    Optax.update_moment_per_elem_norm, Optax.tree_map2, Optax.tree_map,
    Optax.adamw.
  cbn [fst Optax.b1 Optax.b2 Optax.eps Optax.eps_root].
  rewrite Hp, Hmu, Hnu.
  rewrite (first_moment_of_zero _ Hg), (second_moment_of_zero _ Hg).
  rewrite first_rate_bias, second_rate_bias.
  apply direction_of_zero.
Qed.

(** C6, amended.  One update step from zeroed moment accumulators and a
    count that is not negative, on a batch whose gradient is zero at every
    position: the gradient stage of the optimizer contributes exactly zero,
    and every parameter value [p] becomes the binary32 value of
    [p + (- learning_rate) * (0 + weight_decay * p)].  Only the decoupled
    decay acts; how far it moves [p] is decided by rounding. *)
Theorem zero_gradient_step_applies_decay_alone
        (learning_rate weight_decay : Binary32.float32)
        (params : PyTree Idx Binary32.float32)
        (opt_state : Optax.OptState Binary32.float32 Idx)
        (x y : list Field) (j : Idx) :
  (0 <= Optax.count opt_state)%Z ->
  (forall i, Optax.mu opt_state i = fzero) ->
  (forall i, Optax.nu opt_state i = fzero) ->
  (forall i,
      Binary32.is_zero (grad (fun p => loss_fn p x y) params i) = true) ->
  fst (Optax.scale_by_adam (Optax.adamw learning_rate weight_decay)
                           (grad (fun p => loss_fn p x y) params)
                           opt_state) j = fzero /\
  fst (fst (update (Optax.adamw learning_rate weight_decay)
                   params opt_state x y)) j
  = fadd (params j)
         (fmul (fneg learning_rate)
               (fadd fzero (fmul weight_decay (params j)))).
Proof.
  intros Hc Hmu Hnu Hg.
  pose proof (adam_direction_zero learning_rate weight_decay
                (grad (fun p => loss_fn p x y) params) opt_state j
                Hc (Hmu j) (Hnu j) (Hg j)) as Hdir.
  split; [exact Hdir|].
  unfold update, value_and_grad, Optax.update.
  destruct (Optax.scale_by_adam _ _ opt_state) as [u1 state'] eqn:Es.
  cbn [fst snd] in *.
  unfold Optax.apply_updates, Optax.scale_by_learning_rate,
    Optax.add_decayed_weights, Optax.tree_map2, Optax.tree_map, Optax.adamw.
  cbn [Optax.lr Optax.wd]. now rewrite Hdir.
Qed.

End Float32DecayFacts.

(** ** The split: partition *)

Section PartitionFacts.
Context {G : Type} `{Rng G}.

(** C3, amended.  When the two requested sizes add up to the length of the
    dataset, the split returns two subsets of exactly these sizes, with no
    index in both, no index repeated, and every index inside the dataset. *)
Theorem random_split_partitions (N n_train n_eval : nat) (g : G) :
  randperm_spec ->
  n_train + n_eval = N ->
  exists train test g',
    Torch.random_split N [n_train; n_eval] g = (Ok [train; test], g') /\
    length train = n_train /\
    length test = n_eval /\
    (forall i, In i train -> ~ In i test) /\
    NoDup (train ++ test) /\
    (forall i, In i (train ++ test) -> i < N).
Proof.
  intros Hspec E. rewrite (random_split_pair N n_train n_eval g E).
  set (perm := fst (randperm g N)).
  assert (Hlen : length perm = N) by (apply randperm_length; exact Hspec).
  assert (Hrest : firstn n_eval (skipn n_train perm) = skipn n_train perm).
  { apply firstn_all2. rewrite length_skipn. lia. }
  assert (Hnd : NoDup (firstn n_train perm ++ skipn n_train perm)).
  { rewrite firstn_skipn. apply randperm_NoDup. exact Hspec. }
  do 3 eexists. split; [reflexivity|]. rewrite Hrest.
  split; [apply firstn_length_le; lia|].
  split; [rewrite length_skipn; lia|].
  split; [intros i; now apply NoDup_app_disjoint|].
  split; [exact Hnd|].
  intros i. rewrite firstn_skipn. apply randperm_bound. exact Hspec.
Qed.

End PartitionFacts.

(** ** The test bench *)

Lemma rotate_permutation (k : nat) (l : list nat) :
  Permutation (Bench.rotate k l) l.
Proof.
  unfold Bench.rotate. generalize (k mod length l). intros n.
  apply Permutation_trans with (firstn n l ++ skipn n l).
  - apply Permutation_app_comm.
  - now rewrite firstn_skipn.
Qed.

Lemma bench_rng_spec : @randperm_spec nat Bench.rng.
Proof. intros g n. simpl. apply rotate_permutation. Qed.

Lemma bench_model_shape {F} `{Scalar F} :
  @apply_shape F F unit Bench.model.
Proof. intros params x. simpl. unfold Bench.linear_apply. apply length_map. Qed.

(** ** Concrete runs *)

Section Witnesses.
Local Existing Instance Binary32.scalar.
Local Existing Instance Bench.model.
Local Existing Instance Bench.jax.
Local Existing Instance Bench.rng.

Lemma random_split_partitions_witness :
  @randperm_spec nat Bench.rng /\ 2 + 3 = 5 /\
  exists train test g',
    Torch.random_split 5 [2; 3] 0 = (Ok [train; test], g') /\
    length train = 2 /\
    length test = 3 /\
    (forall i, In i train -> ~ In i test) /\
    NoDup (train ++ test) /\
    (forall i, In i (train ++ test) -> i < 5).
Proof.
  split; [exact bench_rng_spec|]. split; [reflexivity|].
  apply (random_split_partitions 5 2 3 0 bench_rng_spec). reflexivity.
Defined.

(** C3, as stated, fails: sizes 1 and 1 fit a dataset of 3 samples, yet the
    split returns no subsets; it raises, and so does the run. *)
Lemma random_split_rejects_smaller_sum :
  1 + 1 <= 3 /\
  Torch.random_split 3 [1; 1] 0 = (Raise ValueError, 0) /\
  (forall train test g',
      Torch.random_split 3 [1; 1] 0 <> (Ok [train; test], g')) /\
  main (Bench.settings 1 1 2 1) (Bench.linear_data 2 3) 0
  = ([], Raise ValueError).
Proof.
  split; [lia|]. split; [reflexivity|]. split; [|reflexivity].
  intros train test g'. discriminate.
Qed.

Lemma split_larger_than_dataset_fails_witness :
  n_train Runs.S4 + n_test Runs.S4 > length Runs.data4 /\
  Torch.random_split (length Runs.data4) [n_train Runs.S4; n_test Runs.S4] 0
    = (Raise ValueError, 0) /\
  main Runs.S4 Runs.data4 0 = ([], Raise ValueError).
Proof.
  split; [simpl; lia|].
  apply (split_larger_than_dataset_fails Runs.S4 Runs.data4 0). simpl. lia.
Defined.

Lemma loader_batch_sizes_witness :
  @randperm_spec nat Bench.rng /\ 0 < 3 /\
  exists dropping keeping,
    Torch.DataLoader_new (seq 0 7) 3 true true = Ok dropping /\
    Torch.DataLoader_new (seq 0 7) 3 true false = Ok keeping /\
    Forall (fun b => length b = 3) (fst (Torch.iter_batches dropping 2)) /\
    length (fst (Torch.iter_batches dropping 2)) = length (seq 0 7) / 3 /\
    ((seq 0 7 = [] /\ fst (Torch.iter_batches keeping 2) = []) \/
     (exists front b,
         fst (Torch.iter_batches keeping 2) = front ++ [b] /\
         length b =
           if length (seq 0 7) mod 3 =? 0 then 3
           else length (seq 0 7) mod 3)) /\
    (forall Field (dataset : list (Field * Field)) b x y,
        fetch dataset (seq 0 7) b = Ok (x, y) ->
        length x = length b /\ length y = length b).
Proof.
  split; [exact bench_rng_spec|]. split; [lia|].
  apply (loader_batch_sizes (seq 0 7) 3 true 2 bench_rng_spec). lia.
Defined.

Lemma val_loss_witness :
  @randperm_spec nat Bench.rng /\
  @apply_shape _ _ _ Bench.model /\
  setup Runs.S0 Runs.data0 0 = Ok (Runs.env0, Bench.start 1) /\
  0 < n_test Runs.S0 /\
  exists front b x y tr st1 st2,
    snd (train_pass Runs.data0 Runs.env0 (Bench.start 1)) = Ok st1 /\
    fst (Torch.iter_batches (test_loader Runs.env0) (gen st1)) = front ++ [b] /\
    fetch Runs.data0 (test_dataset Runs.env0) b = Ok (x, y) /\
    epoch_body Runs.data0 Runs.env0 0 (Bench.start 1) = (tr, Ok st2) /\
    scalars "val_loss" tr =
      [(fdiv (loss_fn (model_params st1) x y)
             (of_int (Z.of_nat (length (front ++ [b])))),
        step st1)] /\
    (forall a : Binary32.float32,
        report_val_loss (Field:=Binary32.float32) (set_avg_loss a st2) =
        report_val_loss st2).
Proof.
  assert (Hs : setup Runs.S0 Runs.data0 0 = Ok (Runs.env0, Bench.start 1))
    by (vm_compute; reflexivity).
  split; [exact bench_rng_spec|]. split; [exact bench_model_shape|].
  split; [exact Hs|]. split; [simpl; lia|].
  apply (val_loss_is_last_batch_loss_over_batches
           Runs.S0 Runs.data0 0 Runs.env0 (Bench.start 1) 0 (Bench.start 1)
           bench_rng_spec bench_model_shape Hs).
  simpl. lia.
Defined.

(** The scenario of ten samples, six for training and four for evaluation,
    in batches of two, for one epoch: three ["loss"] metrics at steps 0, 1
    and 2, then one ["val_loss"] metric at step 3. *)
Example ten_samples_one_epoch :
  map snd (scalars "loss"
             (fst (main (Bench.settings 6 4 2 1) (Bench.linear_data 2 10) 0)))
  = [0; 1; 2] /\
  map snd (scalars "val_loss"
             (fst (main (Bench.settings 6 4 2 1) (Bench.linear_data 2 10) 0)))
  = [3].
Proof. split; vm_compute; reflexivity. Qed.

Example seven_in_batches_of_three :
  Torch.batch_sampler 3 false (seq 0 7) = [[0; 1; 2]; [3; 4; 5]; [6]] /\
  Torch.batch_sampler 3 true (seq 0 7) = [[0; 1; 2]; [3; 4; 5]].
Proof. split; reflexivity. Qed.

Lemma validation_pass_idempotent_witness :
  @randperm_spec nat Bench.rng /\
  setup Runs.S0 Runs.data0 0 = Ok (Runs.env0, Bench.start 1) /\
  exists tr o,
    validation_pass Runs.data0 Runs.env0 (Bench.start 1) = (tr, o) /\
    match o with
    | Ok st1 =>
        model_params st1 = model_params (Bench.start 1) /\
        opt_state st1 = opt_state (Bench.start 1) /\
        step st1 = step (Bench.start (F:=Binary32.float32) 1) /\
        validation_pass Runs.data0 Runs.env0 st1 = (tr, Ok st1)
    | Raise e =>
        e = UnboundLocalError /\ tr = [] /\
        n_test Runs.S0 = 0 /\
        lossval (Bench.start (F:=Binary32.float32) 1) = None
    end.
Proof.
  assert (Hs : setup Runs.S0 Runs.data0 0 = Ok (Runs.env0, Bench.start 1))
    by (vm_compute; reflexivity).
  split; [exact bench_rng_spec|]. split; [exact Hs|].
  exact (validation_pass_idempotent
           Runs.S0 Runs.data0 0 Runs.env0 (Bench.start 1) (Bench.start 1)
           bench_rng_spec Hs).
Defined.



Lemma stale_loss_witness :
  @randperm_spec nat Bench.rng /\
  @apply_shape _ _ _ Bench.model /\
  setup Runs.S2 Runs.data2 0 = Ok (Runs.env2, Bench.start 1) /\
  n_test Runs.S2 = 0 /\
  batch_size Runs.S2 <= n_train Runs.S2 /\
  exists ls l st1 xt yt pt,
    train_pass Runs.data2 Runs.env2 (Bench.start 1)
      = (loss_events (ls ++ [l]) (step (Bench.start (F:=Binary32.float32) 1)), Ok st1) /\
    fst (Torch.iter_batches (test_loader Runs.env2) (gen st1)) = [] /\
    lossval st1 = Some l /\
    epoch_body Runs.data2 Runs.env2 0 (Bench.start 1) =
      (LogImage "Training image" (step (Bench.start (F:=Binary32.float32) 1)) xt yt pt
         :: loss_events (ls ++ [l]) (step (Bench.start (F:=Binary32.float32) 1))
         ++ [LogScalar "val_loss" (fdiv l (of_int 0)) (step st1)],
       Raise IndexError) /\
    Binary32.is_finite (fdiv l (of_int 0)) = false.
Proof.
  assert (Hs : setup Runs.S2 Runs.data2 0 = Ok (Runs.env2, Bench.start 1))
    by reflexivity.
  split; [exact bench_rng_spec|]. split; [exact bench_model_shape|].
  split; [exact Hs|]. split; [reflexivity|]. split; [simpl; lia|].
  apply (stale_loss_over_zero_batches
           Runs.S2 Runs.data2 0 Runs.env2 (Bench.start 1) 0 (Bench.start 1)
           bench_rng_spec bench_model_shape Hs); simpl; lia.
Defined.

(** C9, as stated, fails: with one training sample and batches of two, the
    training loader yields no batch; the evaluation loader yields none
    either; line 130 finds [lossval] unbound and the run ends there, with no
    ["val_loss"] report. *)
Lemma no_training_batch_counterexample :
  setup Runs.S3 Runs.data3 0 = Ok (Runs.env3, Bench.start 1) /\
  fst (Torch.iter_batches (test_loader Runs.env3) 1) = [] /\
  main Runs.S3 Runs.data3 0 =
    ([LogImage "Training image" 0 (of_int 1) (of_int 2)
               (fmul fone (of_int 1))],
     Raise UnboundLocalError) /\
  scalars "val_loss" (fst (main Runs.S3 Runs.data3 0)) = [].
Proof. repeat split; reflexivity. Qed.

End Witnesses.

(** * Further properties of the script *)

(** ** The split uses every sample once *)

Section CoverFacts.
Context {G : Type} `{Rng G}.

(** X1.  When the two sizes add up to the length of the dataset, the two subsets
    together hold every index of the dataset exactly once: no sample is left
    out of both and none is used twice. *)
Theorem random_split_covers_dataset (N n_train n_eval : nat) (g : G) :
  randperm_spec ->
  n_train + n_eval = N ->
  exists train test g',
    Torch.random_split N [n_train; n_eval] g = (Ok [train; test], g') /\
    Permutation (train ++ test) (seq 0 N).
Proof.
  intros Hspec E. rewrite (random_split_pair N n_train n_eval g E).
  set (perm := fst (randperm g N)).
  assert (Hlen : length perm = N) by (apply randperm_length; exact Hspec).
  assert (Hrest : firstn n_eval (skipn n_train perm) = skipn n_train perm).
  { apply firstn_all2. rewrite length_skipn. lia. }
  do 3 eexists. split; [reflexivity|].
  rewrite Hrest, firstn_skipn. apply Hspec.
Qed.

End CoverFacts.

(** ** What a pass over a loader visits *)

Section VisitFacts.

Variable B : nat.
Hypothesis B_pos : 0 < B.

(** Without [drop_last] the batches, put end to end, are the sampler's order:
    nothing is lost and nothing is repeated. *)
Lemma batch_sampler_loop_concat_keep (sampler batch : list nat) :
  concat (Torch.batch_sampler_loop B false sampler batch) = batch ++ sampler.
Proof.
  revert batch. induction sampler as [|idx rest IH]; intros batch; simpl.
  - destruct batch as [|p batch']; simpl; [reflexivity|].
    now rewrite !app_nil_r.
  - destruct (length (batch ++ [idx]) =? B).
    + simpl. rewrite IH. simpl. now rewrite <- app_assoc.
    + rewrite IH. now rewrite <- app_assoc.
Qed.

(** With [drop_last] they are the first [B * floor (total / B)] entries. *)
Lemma batch_sampler_loop_concat_drop (sampler batch : list nat) :
  length batch < B ->
  concat (Torch.batch_sampler_loop B true sampler batch)
  = firstn (B * ((length batch + length sampler) / B)) (batch ++ sampler).
Proof.
  revert batch. induction sampler as [|idx rest IH]; intros batch Hlt; simpl.
  - rewrite andb_false_r, Nat.add_0_r, (Nat.div_small _ _ Hlt), Nat.mul_0_r.
    reflexivity.
  - rewrite length_app. simpl length.
    destruct (Nat.eqb_spec (length batch + 1) B) as [E|NE].
    + simpl. rewrite (IH [] B_pos). simpl.
      replace (length batch + S (length rest)) with (B + length rest) by lia.
      rewrite (step_div B B_pos), Nat.mul_add_distr_l, Nat.mul_1_r.
      replace (batch ++ idx :: rest) with ((batch ++ [idx]) ++ rest)
        by now rewrite <- app_assoc.
      assert (Hl : length (batch ++ [idx]) = B)
        by (rewrite length_app; simpl; exact E).
      rewrite <- Hl at 3. now rewrite firstn_app_2.
    + assert (Hlt' : length (batch ++ [idx]) < B)
        by (rewrite length_app; simpl; lia).
      rewrite (IH _ Hlt'), length_app. simpl length.
      rewrite <- app_assoc. simpl.
      replace (length batch + 1 + length rest)
        with (length batch + S (length rest)) by lia.
      reflexivity.
Qed.

(** Every batch has at least one position and at most [B]. *)
Lemma batch_sampler_loop_sizes (drop_last : bool) (sampler batch : list nat) :
  length batch < B ->
  Forall (fun b => 0 < length b <= B)
         (Torch.batch_sampler_loop B drop_last sampler batch).
Proof.
  revert batch. induction sampler as [|idx rest IH]; intros batch Hlt; simpl.
  - destruct (Nat.ltb_spec 0 (length batch)); simpl; [|constructor].
    destruct drop_last; simpl; constructor; [lia|constructor].
  - rewrite length_app. simpl length.
    destruct (Nat.eqb_spec (length batch + 1) B) as [E|NE].
    + constructor; [rewrite length_app; simpl; lia|]. now apply IH.
    + apply IH. rewrite length_app. simpl. lia.
Qed.

End VisitFacts.

Section LoaderVisitFacts.
Context {G : Type} `{Rng G}.

(** X2.  One pass over the evaluation loader (no shuffle, no [drop_last]) with a
    positive batch size visits the positions [0 .. n-1] of its subset in
    order, each exactly once, in batches of one to [B] positions. *)
Theorem evaluation_pass_visits_all_in_order
        (subset : Torch.Subset) (B : nat) (g : G) :
  0 < B ->
  exists loader,
    Torch.DataLoader_new subset B false false = Ok loader /\
    concat (fst (Torch.iter_batches loader g)) = seq 0 (length subset) /\
    Forall (fun b => 0 < length b <= B) (fst (Torch.iter_batches loader g)).
Proof.
  intros HB. unfold Torch.DataLoader_new.
  destruct (Nat.eqb_spec B 0) as [E|_]; [lia|].
  eexists. split; [reflexivity|].
  unfold Torch.iter_batches, Torch.sampler_order, Torch.batch_sampler. simpl.
  split.
  - apply batch_sampler_loop_concat_keep.
  - apply batch_sampler_loop_sizes; simpl; exact HB.
Qed.

(** X3.  One pass over the training loader (shuffle, [drop_last]) with a positive
    batch size visits no position twice and leaves out exactly
    [n mod B] positions of its subset: the visited positions followed by the
    dropped ones are a permutation of [0 .. n-1]. *)
Theorem training_pass_drops_remainder
        (subset : Torch.Subset) (B : nat) (g : G) :
  randperm_spec -> 0 < B ->
  exists loader dropped,
    Torch.DataLoader_new subset B true true = Ok loader /\
    Permutation (concat (fst (Torch.iter_batches loader g)) ++ dropped)
                (seq 0 (length subset)) /\
    length dropped = length subset mod B /\
    NoDup (concat (fst (Torch.iter_batches loader g))).
Proof.
  intros Hspec HB. unfold Torch.DataLoader_new.
  destruct (Nat.eqb_spec B 0) as [E|_]; [lia|].
  set (n := length subset).
  set (order := fst (randperm g n)).
  exists (Torch.Build_DataLoader subset B true true),
    (skipn (B * (n / B)) order).
  split; [reflexivity|].
  assert (Hlen : length order = n) by (apply randperm_length; exact Hspec).
  assert (Ec : concat (fst (Torch.iter_batches
                              (Torch.Build_DataLoader subset B true true) g))
               = firstn (B * (n / B)) order).
  { rewrite iter_batches_fst. unfold Torch.sampler_order, Torch.batch_sampler.
    simpl. fold n. fold order.
    rewrite (batch_sampler_loop_concat_drop B HB order [] HB).
    simpl. now rewrite Hlen. }
  rewrite Ec, firstn_skipn. split; [apply Hspec|]. split.
  - rewrite length_skipn, Hlen.
    pose proof (Nat.div_mod_eq n B). lia.
  - assert (Hnd : NoDup order) by (apply randperm_NoDup; exact Hspec).
    rewrite <- (firstn_skipn (B * (n / B)) order) in Hnd.
    exact (NoDup_app_remove_r _ _ Hnd).
Qed.

End LoaderVisitFacts.

(** ** The whole run *)

Section RunFacts.
Context {F Field Idx G : Type}.
Context `{Scalar F} `{Model F Field Idx} `{Jax F Field Idx} `{Rng G}.

Variable S : Settings F.
Variable dataset : list (Field * Field).

Local Abbreviation State := (Locals F Idx G).

(** The number of training batches of an epoch. *)
Local Abbreviation per_epoch := (n_train S / batch_size S).

Lemma setup_succeeds (g : G) :
  randperm_spec ->
  n_train S + n_test S = length dataset ->
  0 < batch_size S -> 0 < n_train S ->
  exists env st0, setup S dataset g = Ok (env, st0).
Proof.
  intros Hspec E HB Hn. unfold setup.
  rewrite (random_split_pair _ _ _ g E).
  set (perm := fst (randperm g (length dataset))).
  assert (Hlen : length perm = length dataset)
    by (apply randperm_length; exact Hspec).
  unfold Torch.DataLoader_new.
  destruct (Nat.eqb_spec (batch_size S) 0) as [|_]; [lia|].
  destruct (subset_getitem_ok dataset (firstn (n_train S) perm) 0)
    as [s Es].
  - apply firstn_valid. intros i. apply randperm_bound. exact Hspec.
  - rewrite firstn_length_le; lia.
  - rewrite Es. eauto.
Qed.

Lemma map_snd_combine_seq {A} (ls : list A) (s : nat) :
  map snd (combine ls (seq s (length ls))) = seq s (length ls).
Proof.
  revert s. induction ls as [|l ls IH]; intros s; [reflexivity|].
  simpl. now rewrite IH.
Qed.

(** *** The optimizer's count and the step counter *)

Lemma update_count (o : Optax.AdamW F) (params : PyTree Idx F)
      (opt : Optax.OptState F Idx) (x y : list Field) :
  Optax.count (snd (fst (update o params opt x y)))
  = Optax.safe_int32_increment (Optax.count opt).
Proof. reflexivity. Qed.

Lemma saturating_step (s : nat) :
  Optax.safe_int32_increment (Z.min (Z.of_nat s) Optax.max_int32)
  = Z.min (Z.of_nat (s + 1)) Optax.max_int32.
Proof.
  unfold Optax.safe_int32_increment, Optax.max_int32.
  destruct (Z.ltb_spec (Z.min (Z.of_nat s) 2147483647) 2147483647); lia.
Qed.

Lemma train_loop_count (env : Env F) (batches : list (list nat))
      (st st' : State) (tr : list (event F Field)) :
  train_loop dataset env batches st = (tr, Ok st') ->
  Optax.count (opt_state st) = Z.min (Z.of_nat (step st)) Optax.max_int32 ->
  Optax.count (opt_state st') = Z.min (Z.of_nat (step st')) Optax.max_int32.
Proof.
  revert st tr. induction batches as [|b rest IH]; intros st tr.
  - simpl. unfold ret. intros E. now inversion E.
  - cbn [train_loop].
    destruct (fetch dataset (train_dataset env) b) as [[x y]|err];
      [|discriminate].
    rewrite bind_lift_ok. cbn [fst snd].
    pose proof (update_count (optimizer env) (model_params st)
                             (opt_state st) x y) as Hc.
    destruct (update (optimizer env) (model_params st) (opt_state st) x y)
      as [[params' opt_state'] l].
    unfold wandb_log. rewrite bind_emit.
    destruct (train_loop dataset env rest _) as [tr' o] eqn:Erest.
    cbn [fst snd]. intros E Hinv. inversion E; subst.
    apply (IH _ _ Erest). simpl. simpl in Hc.
    rewrite Hc, Hinv. apply saturating_step.
Qed.

Lemma train_pass_count (env : Env F) (st st' : State)
      (tr : list (event F Field)) :
  train_pass dataset env st = (tr, Ok st') ->
  Optax.count (opt_state st) = Z.min (Z.of_nat (step st)) Optax.max_int32 ->
  Optax.count (opt_state st') = Z.min (Z.of_nat (step st')) Optax.max_int32.
Proof.
  unfold train_pass.
  destruct (Torch.iter_batches (train_loader env) (gen st)) as [batches g'].
  intros E Hinv. exact (train_loop_count env batches _ _ _ E Hinv).
Qed.

(** *** One complete epoch *)

Lemma epoch_full_spec (env : Env F) (epoch : nat) (st : State) :
  randperm_spec -> apply_shape -> env_ok S dataset env -> 0 < n_test S ->
  exists tr st',
    epoch_body dataset env epoch st = (tr, Ok st') /\
    step st' = step st + per_epoch /\
    map snd (scalars "loss" tr) = seq (step st) per_epoch /\
    map snd (scalars "val_loss" tr) = [step st + per_epoch] /\
    (Optax.count (opt_state st)
       = Z.min (Z.of_nat (step st)) Optax.max_int32 ->
     Optax.count (opt_state st')
       = Z.min (Z.of_nat (step st')) Optax.max_int32).
Proof.
  intros Hspec Hshape Hok Hn.
  pose proof Hok as (Hvt & Hve & Hlt & Hle & Hnt & HB & _).
  destruct (first_sample dataset (train_dataset env) Hvt)
    as (xt & yt & Ext); [lia|].
  destruct (first_sample dataset (test_dataset env) Hve)
    as (xv & yv & Exv); [lia|].
  destruct (train_pass_spec S dataset env st Hspec Hok)
    as (ls & sa & Etp & Hlen & Hsa & _).
  destruct (validation_pass_nonempty S dataset env sa Hok Hn)
    as (? & ? & ? & ? & st1 & _ & _ & Evp & _ & Ho1 & Hs1).
  destruct (epoch_body_compose dataset env epoch st sa st1 _ _ xt yt xv yv
                               Hshape Ext Exv Etp Evp) as (pt & pv & E1).
  do 2 eexists. split; [exact E1|].
  split; [lia|]. split; [|split].
  - cbn [scalars]. rewrite scalars_app, scalars_loss_events. simpl.
    rewrite app_nil_r, map_snd_combine_seq. now rewrite Hlen.
  - cbn [scalars]. rewrite scalars_app, scalars_loss_events_other. simpl.
    f_equal. lia.
  - intros Hinv. rewrite Ho1, Hs1.
    exact (train_pass_count env st sa _ Etp Hinv).
Qed.

Lemma for_epochs_spec (env : Env F) (epochs : list nat) (st : State) :
  randperm_spec -> apply_shape -> env_ok S dataset env -> 0 < n_test S ->
  exists tr st',
    for_epochs dataset env epochs st = (tr, Ok st') /\
    step st' = step st + length epochs * per_epoch /\
    map snd (scalars "loss" tr)
      = seq (step st) (length epochs * per_epoch) /\
    map snd (scalars "val_loss" tr)
      = map (fun j => step st + (j + 1) * per_epoch)
            (seq 0 (length epochs)) /\
    (Optax.count (opt_state st)
       = Z.min (Z.of_nat (step st)) Optax.max_int32 ->
     Optax.count (opt_state st')
       = Z.min (Z.of_nat (step st')) Optax.max_int32).
Proof.
  intros Hspec Hshape Hok Hn. revert st.
  induction epochs as [|epoch rest IH]; intros st.
  - exists [], st. simpl. repeat split; try lia; try tauto.
  - destruct (epoch_full_spec env epoch st Hspec Hshape Hok Hn)
      as (tr1 & st1 & E1 & Hs1 & Hl1 & Hv1 & Hc1).
    destruct (IH st1) as (tr2 & st2 & E2 & Hs2 & Hl2 & Hv2 & Hc2).
    exists (tr1 ++ tr2), st2. cbn [for_epochs].
    rewrite (bind_ok _ _ _ _ E1), E2. cbn [fst snd length].
    split; [reflexivity|]. split; [lia|]. split; [|split].
    + rewrite scalars_app, map_app, Hl1, Hl2, Hs1.
      rewrite <- seq_app. reflexivity.
    + rewrite scalars_app, map_app, Hv1, Hv2, Hs1.
      cbn [seq map app]. rewrite <- seq_shift, map_map.
      f_equal; [lia|]. apply map_ext. intros j. lia.
    + intros Hinv. apply Hc2, Hc1, Hinv.
Qed.

(** X4.  A run with a valid split, a positive batch size and at least one
    sample in each subset completes all its epochs.  The step counter ends
    at [n_epochs * floor (n_train / batch_size)]; the ["loss"] metrics sit
    at the steps [0, 1, 2, ...] with no gap and no restart between epochs;
    there is one ["val_loss"] metric per epoch, at the step the counter has
    reached when that epoch's training ends. *)
Theorem run_completes_with_consecutive_steps (g : G) :
  randperm_spec -> apply_shape ->
  n_train S + n_test S = length dataset ->
  0 < batch_size S -> 0 < n_train S -> 0 < n_test S ->
  exists tr st,
    main S dataset g = (tr, Ok st) /\
    step st = n_epochs S * per_epoch /\
    map snd (scalars "loss" tr) = seq 0 (n_epochs S * per_epoch) /\
    map snd (scalars "val_loss" tr)
      = map (fun j => (j + 1) * per_epoch) (seq 0 (n_epochs S)).
Proof.
  intros Hspec Hshape E HB Hnt Hne.
  destruct (setup_succeeds g Hspec E HB Hnt) as (env & st0 & Es).
  destruct (setup_env_ok S dataset g env st0 Hspec Es)
    as (Hok & _ & _ & Hs0).
  destruct (for_epochs_spec env (seq 0 (n_epochs S)) st0
                            Hspec Hshape Hok Hne)
    as (tr & st & Ef & Hs & Hl & Hv & _).
  rewrite length_seq, Hs0 in *.
  exists tr, st. unfold main. rewrite Es, bind_lift_ok. cbn [fst snd].
  repeat split; assumption.
Qed.

(** X5.  In such a run the optimizer's count follows the step counter: when the
    run ends it equals the number of update steps made, or [2^31 - 1] once
    that number exceeds it (the count is an int32 that saturates). *)
Theorem optimizer_count_is_saturating_step_count (g : G) :
  randperm_spec -> apply_shape ->
  n_train S + n_test S = length dataset ->
  0 < batch_size S -> 0 < n_train S -> 0 < n_test S ->
  exists tr st,
    main S dataset g = (tr, Ok st) /\
    Optax.count (opt_state st)
      = Z.min (Z.of_nat (n_epochs S * per_epoch)) 2147483647.
Proof.
  intros Hspec Hshape E HB Hnt Hne.
  destruct (setup_succeeds g Hspec E HB Hnt) as (env & st0 & Es).
  destruct (setup_env_ok S dataset g env st0 Hspec Es)
    as (Hok & _ & _ & Hs0).
  destruct (for_epochs_spec env (seq 0 (n_epochs S)) st0
                            Hspec Hshape Hok Hne)
    as (tr & st & Ef & Hs & _ & _ & Hc).
  rewrite length_seq, Hs0 in *.
  exists tr, st. unfold main. rewrite Es, bind_lift_ok. cbn [fst snd].
  split; [exact Ef|].
  replace (n_epochs S * per_epoch) with (step st) by lia. apply Hc.
  unfold setup in Es.
  destruct (Torch.random_split _ _ g) as [[[|tr_ds [|te_ds [|? ?]]]|?] ?];
    try discriminate.
  destruct (Torch.DataLoader_new tr_ds _ _ _); [|discriminate].
  destruct (Torch.DataLoader_new te_ds _ _ _); [|discriminate].
  destruct (subset_getitem dataset tr_ds 0); [|discriminate].
  inversion Es; subst. reflexivity.
Qed.

End RunFacts.

(** ** Runs that do not start, and epochs at their edges *)

Section EdgeFacts.
Context {F Field Idx G : Type}.
Context `{Scalar F} `{Model F Field Idx} `{Jax F Field Idx} `{Rng G}.

Variable S : Settings F.
Variable dataset : list (Field * Field).

Local Abbreviation State := (Locals F Idx G).
Local Abbreviation per_epoch := (n_train S / batch_size S).

(** X6.  The run reaches its epoch loop exactly when the two sizes add up to the
    length of the dataset, the batch size is positive and the training
    subset is not empty; otherwise it raises before anything is sent. *)
Theorem run_starts_iff_settings_fit (g : G) :
  randperm_spec ->
  ((exists env st0, setup S dataset g = Ok (env, st0)) <->
   (n_train S + n_test S = length dataset /\
    0 < batch_size S /\ 0 < n_train S)) /\
  ((forall env st0, setup S dataset g <> Ok (env, st0)) ->
   exists e, main S dataset g = ([], Raise e)).
Proof.
  intros Hspec. split; [split|].
  - intros (env & st0 & Es).
    destruct (setup_env_ok S dataset g env st0 Hspec Es)
      as ((_ & _ & _ & _ & Hnt & HB & _) & E & _).
    repeat split; assumption.
  - intros (E & HB & Hnt). exact (setup_succeeds S dataset g Hspec E HB Hnt).
  - intros Hno. unfold main.
    destruct (setup S dataset g) as [[env st0]|e].
    + exfalso. exact (Hno env st0 eq_refl).
    + exists e. reflexivity.
Qed.

(** X7.  A batch size of zero is refused when the loaders are built: the run
    raises [ValueError] and sends nothing, whatever the sizes. *)
Theorem zero_batch_size_is_refused (g : G) :
  batch_size S = 0 -> main S dataset g = ([], Raise ValueError).
Proof.
  intros HB. unfold main, setup.
  destruct (Nat.eq_dec (n_train S + n_test S) (length dataset)) as [E|NE].
  - rewrite (random_split_pair _ _ _ g E).
    unfold Torch.DataLoader_new. rewrite HB. reflexivity.
  - rewrite random_split_mismatch; [reflexivity|simpl; lia].
Qed.

Lemma loss_events_length (ls : list F) (s : nat) :
  length (@loss_events F Field ls s) = length ls.
Proof.
  unfold loss_events. rewrite length_map, length_combine, length_seq.
  apply Nat.min_id.
Qed.

Lemma loss_events_scalars (ls : list F) (s : nat) :
  Forall is_scalar (@loss_events F Field ls s).
Proof.
  unfold loss_events. apply Forall_forall. intros e Hin.
  apply in_map_iff in Hin. destruct Hin as (li & <- & _). exact I.
Qed.

(** X8.  In an epoch that completes, the first event is the artifact of the
    training sample, predicted with the parameters the epoch starts with, at
    the step the epoch starts with; the last event is the artifact of the
    evaluation sample, predicted with the parameters the training pass left,
    at the step it left; everything between them is a scalar metric. *)
Theorem epoch_images_frame_the_epoch
        (g : G) (env : Env F) (st0 : State) (epoch : nat) (st : State) :
  randperm_spec -> apply_shape ->
  setup S dataset g = Ok (env, st0) ->
  0 < n_test S ->
  exists st1 st2 xt yt pt xv yv pv mid,
    snd (train_pass dataset env st) = Ok st1 /\
    epoch_body dataset env epoch st =
      (LogImage "Training image" (step st) xt yt pt
         :: mid ++ [LogImage "Validation image" (step st1) xv yv pv],
       Ok st2) /\
    Forall is_scalar mid /\
    getitem0 (model_apply (model_params st) (expand_dims xt)) = Ok pt /\
    getitem0 (model_apply (model_params st1) (expand_dims xv)) = Ok pv /\
    model_params st2 = model_params st1.
Proof.
  intros Hspec Hshape Hsetup Hn.
  destruct (setup_env_ok S dataset g env st0 Hspec Hsetup) as (Hok & _).
  pose proof Hok as (Hvt & Hve & Hlt & Hle & Hnt & HB & _).
  destruct (first_sample dataset (train_dataset env) Hvt)
    as (xt & yt & Ext); [lia|].
  destruct (first_sample dataset (test_dataset env) Hve)
    as (xv & yv & Exv); [lia|].
  destruct (train_pass_spec S dataset env st Hspec Hok)
    as (ls & st1 & Etp & _).
  destruct (validation_pass_nonempty S dataset env st1 Hok Hn)
    as (? & ? & ? & ? & st2 & _ & _ & Evp & Hp2 & _ & Hs2).
  destruct (log_image_ok dataset "Training image" (train_dataset env) st
                         xt yt Hshape Ext) as (pt & Hpt & Elt).
  destruct (log_image_ok dataset "Validation image" (test_dataset env) st2
                         xv yv Hshape Exv) as (pv & Hpv & Elv).
  exists st1, st2, xt, yt, pt, xv, yv, pv. eexists.
  split; [now rewrite Etp|]. split; [|split; [|split; [|split]]].
  - rewrite epoch_body_unfold.
    rewrite (bind_ok _ _ _ _ Elt), (bind_ok _ _ _ _ Etp),
      (bind_ok _ _ _ _ Evp), (bind_ok _ _ _ _ Elv).
    cbn [fst snd ret app]. rewrite Hs2.
    match goal with
    | |- (_ :: _ ++ [?a; ?b], _) = _ =>
        change [a; b] with ([a] ++ [b])
    end.
    rewrite app_assoc. reflexivity.
  - apply Forall_app. split; [apply loss_events_scalars|].
    constructor; [exact I|constructor].
  - exact Hpt.
  - rewrite <- Hp2. exact Hpv.
  - exact Hp2.
Qed.

(** A training subset smaller than one batch yields no batch. *)
Lemma train_pass_idle (env : Env F) (st : State) :
  randperm_spec -> env_ok S dataset env -> n_train S < batch_size S ->
  exists g', train_pass dataset env st = ([], Ok (set_gen g' st)).
Proof.
  intros Hspec (_ & _ & Hlt & _ & _ & HB & Etl & _) Hsmall.
  unfold train_pass. rewrite Etl.
  destruct (Torch.iter_batches _ (gen st)) as [batches g'] eqn:Eb.
  assert (Ebs : batches = fst (Torch.iter_batches
                                 (Torch.Build_DataLoader
                                    (train_dataset env) (batch_size S)
                                    true true) (gen st)))
    by now rewrite Eb.
  rewrite iter_batches_fst in Ebs. simpl in Ebs.
  destruct (batch_sampler_loop_drop (batch_size S) HB
              (fst (Torch.sampler_order
                      (Torch.Build_DataLoader (train_dataset env)
                                              (batch_size S) true true)
                      (gen st))) [] HB) as [_ Hn].
  unfold Torch.batch_sampler in Ebs. rewrite <- Ebs in Hn. simpl in Hn.
  rewrite (sampler_order_length _ _ Hspec) in Hn. simpl in Hn.
  rewrite Hlt, (Nat.div_small _ _ Hsmall) in Hn.
  destruct batches; [|discriminate]. exists g'. reflexivity.
Qed.

(** X9.  With no evaluation sample and a training subset smaller than one batch,
    neither loop assigns [lossval]: the first epoch sends its training image
    and then raises [UnboundLocalError] at the report of line 130. *)
Theorem run_without_any_batch_raises_unbound (g : G) :
  randperm_spec -> apply_shape ->
  n_train S = length dataset -> n_test S = 0 ->
  0 < n_train S -> n_train S < batch_size S -> 0 < n_epochs S ->
  exists xt yt pt,
    main S dataset g =
      ([LogImage "Training image" 0 xt yt pt], Raise UnboundLocalError).
Proof.
  intros Hspec Hshape Hall Hz Hnt Hsmall Hep.
  destruct (setup_succeeds S dataset g Hspec) as (env & st0 & Es);
    [lia|lia|exact Hnt|].
  destruct (setup_env_ok S dataset g env st0 Hspec Es)
    as (Hok & _ & Hl0 & Hs0).
  pose proof Hok as (Hvt & _).
  destruct (first_sample dataset (train_dataset env) Hvt)
    as (xt & yt & Ext).
  { destruct Hok as (_ & _ & Hlt & _). lia. }
  destruct (log_image_ok dataset "Training image" (train_dataset env) st0
                         xt yt Hshape Ext) as (pt & _ & Elt).
  destruct (train_pass_idle env st0 Hspec Hok Hsmall) as (g' & Etp).
  destruct (validation_pass_spec S dataset env (set_gen g' st0) Hok)
    as (st1 & _ & Evp & _ & _ & _ & _ & _ & Hnil & _).
  assert (Hl1 : lossval st1 = None).
  { rewrite (Hnil (val_batches_empty S Hz)). exact Hl0. }
  rewrite (report_val_loss_unbound st1 Hl1) in Evp.
  exists xt, yt, pt. unfold main. rewrite Es, bind_lift_ok. cbn [fst snd].
  destruct (n_epochs S) as [|n]; [lia|].
  cbn [seq for_epochs]. rewrite epoch_body_unfold.
  rewrite (bind_ok _ _ _ _ Elt), (bind_ok _ _ _ _ Etp), Evp, Hs0.
  reflexivity.
Qed.

(** X10.  With no evaluation sample but at least one training batch, the run ends
    in its first epoch, whatever the number of epochs asked for: the training
    image, the ["loss"] metrics of one training pass, a ["val_loss"] metric
    that divides the last of these losses by a count of zero, and then
    [IndexError] at the evaluation sample of line 133. *)
Theorem run_without_evaluation_stops_in_first_epoch (g : G) :
  randperm_spec -> apply_shape ->
  n_train S = length dataset -> n_test S = 0 ->
  0 < batch_size S -> batch_size S <= n_train S -> 0 < n_epochs S ->
  exists ls l xt yt pt,
    length (ls ++ [l]) = per_epoch /\
    main S dataset g =
      (LogImage "Training image" 0 xt yt pt
         :: loss_events (ls ++ [l]) 0
         ++ [LogScalar "val_loss" (fdiv l (of_int 0)) per_epoch],
       Raise IndexError).
Proof.
  intros Hspec Hshape Hall Hz HB Hbatch Hep.
  destruct (setup_succeeds S dataset g Hspec) as (env & st0 & Es);
    [lia|exact HB|lia|].
  destruct (setup_env_ok S dataset g env st0 Hspec Es)
    as (Hok & _ & _ & Hs0).
  destruct (epoch_without_eval_batches S dataset env 0 st0
                                       Hspec Hshape Hok Hz Hbatch)
    as (ls & l & st1 & xt & yt & pt & _ & Etp & _ & Eep).
  destruct (train_pass_spec S dataset env st0 Hspec Hok)
    as (ls0 & sa & Etp0 & Hlen & Hsa & _).
  rewrite Etp in Etp0. inversion Etp0 as [[Hev Hst]]. subst sa.
  assert (Hll : length (ls ++ [l]) = length ls0).
  { rewrite <- (loss_events_length (ls ++ [l]) (step st0)), Hev.
    apply loss_events_length. }
  exists ls, l, xt, yt, pt. split; [lia|].
  unfold main. rewrite Es, bind_lift_ok. cbn [fst snd].
  destruct (n_epochs S) as [|n]; [lia|].
  cbn [seq for_epochs]. rewrite Eep. cbn [bind].
  rewrite Hsa, Hs0, <- Hlen, <- Hll. reflexivity.
Qed.

End EdgeFacts.

(** ** A training subset smaller than one batch *)

Section IdleFacts.
Context {F Field Idx G : Type}.
Context `{Scalar F} `{Model F Field Idx} `{Jax F Field Idx} `{Rng G}.

Variable S : Settings F.
Variable dataset : list (Field * Field).

Local Abbreviation State := (Locals F Idx G).

Lemma idle_epoch (env : Env F) (epoch : nat) (st : State)
      (front : list (list nat)) (b : list nat) (x y : list Field) :
  randperm_spec -> apply_shape -> env_ok S dataset env ->
  n_train S < batch_size S -> 0 < n_test S ->
  val_batches S = front ++ [b] ->
  fetch dataset (test_dataset env) b = Ok (x, y) ->
  exists tr st',
    epoch_body dataset env epoch st = (tr, Ok st') /\
    model_params st' = model_params st /\
    opt_state st' = opt_state st /\
    step st' = step st /\
    scalars "loss" tr = [] /\
    scalars "val_loss" tr =
      [(fdiv (loss_fn (model_params st) x y)
             (of_int (Z.of_nat (length (val_batches S)))),
        step st)].
Proof.
  intros Hspec Hshape Hok Hsmall Hn Eb Ef.
  pose proof Hok as (Hvt & Hve & Hlt & Hle & Hnt & HB & _).
  destruct (first_sample dataset (train_dataset env) Hvt)
    as (xt & yt & Ext); [lia|].
  destruct (first_sample dataset (test_dataset env) Hve)
    as (xv & yv & Exv); [lia|].
  destruct (train_pass_idle S dataset env st Hspec Hok Hsmall) as (g' & Etp).
  destruct (validation_pass_spec S dataset env (set_gen g' st) Hok)
    as (st2 & _ & Evp & Hp & Ho & Hs & _ & Hvs & _ & Hlast).
  pose proof (Hlast front b x y Eb Ef) as Hlv.
  rewrite (report_then_ret st2 _ Hlv), Hvs, Hs in Evp.
  simpl in Hp, Ho, Hs, Evp.
  destruct (epoch_body_compose dataset env epoch st _ st2 _ _ xt yt xv yv
                               Hshape Ext Exv Etp Evp) as (pt & pv & E1).
  do 2 eexists. split; [exact E1|].
  repeat split; try assumption.
Qed.

Lemma idle_epochs (env : Env F) (epochs : list nat) (st : State)
      (front : list (list nat)) (b : list nat) (x y : list Field) :
  randperm_spec -> apply_shape -> env_ok S dataset env ->
  n_train S < batch_size S -> 0 < n_test S ->
  val_batches S = front ++ [b] ->
  fetch dataset (test_dataset env) b = Ok (x, y) ->
  exists tr st',
    for_epochs dataset env epochs st = (tr, Ok st') /\
    model_params st' = model_params st /\
    opt_state st' = opt_state st /\
    step st' = step st /\
    scalars "loss" tr = [] /\
    scalars "val_loss" tr =
      repeat (fdiv (loss_fn (model_params st) x y)
                   (of_int (Z.of_nat (length (val_batches S)))),
              step st)
             (length epochs).
Proof.
  intros Hspec Hshape Hok Hsmall Hn Eb Ef. revert st.
  induction epochs as [|epoch rest IH]; intros st.
  - exists [], st. simpl. repeat split.
  - destruct (idle_epoch env epoch st front b x y
                         Hspec Hshape Hok Hsmall Hn Eb Ef)
      as (tr1 & st1 & E1 & Hp1 & Ho1 & Hs1 & Hl1 & Hv1).
    destruct (IH st1) as (tr2 & st2 & E2 & Hp2 & Ho2 & Hs2 & Hl2 & Hv2).
    exists (tr1 ++ tr2), st2. cbn [for_epochs].
    rewrite (bind_ok _ _ _ _ E1), E2. cbn [fst snd length repeat].
    split; [reflexivity|].
    split; [congruence|]. split; [congruence|]. split; [congruence|].
    rewrite !scalars_app, Hl1, Hl2, Hv1, Hv2, Hp1, Hs1.
    split; reflexivity.
Qed.

(** X11.  When the training subset is smaller than one batch, [drop_last] drops
    all of it in every epoch: the run completes without a single update
    step.  It sends no ["loss"] metric, the step counter stays at 0, the
    parameters and the optimizer state at the end are the initial ones, and
    every epoch reports the same ["val_loss"] at step 0. *)
Theorem undersized_training_subset_never_trains (g : G) :
  randperm_spec -> apply_shape ->
  n_train S + n_test S = length dataset ->
  0 < n_train S -> n_train S < batch_size S -> 0 < n_test S ->
  exists env st0 tr st v,
    setup S dataset g = Ok (env, st0) /\
    main S dataset g = (tr, Ok st) /\
    model_params st = model_params st0 /\
    opt_state st = opt_state st0 /\
    step st = 0 /\
    scalars "loss" tr = [] /\
    scalars "val_loss" tr = repeat (v, 0) (n_epochs S).
Proof.
  intros Hspec Hshape E Hnt Hsmall Hn.
  destruct (setup_succeeds S dataset g Hspec E) as (env & st0 & Es);
    [lia|exact Hnt|].
  destruct (setup_env_ok S dataset g env st0 Hspec Es)
    as (Hok & _ & _ & Hs0).
  pose proof Hok as (_ & _ & _ & _ & _ & HB & _).
  destruct (val_batches_last S HB Hn) as (front & b & Eb).
  destruct (val_batches_fetch_ok S dataset env b Hok) as (x & y & Ef).
  { rewrite Eb. apply in_or_app. right. now left. }
  destruct (idle_epochs env (seq 0 (n_epochs S)) st0 front b x y
                        Hspec Hshape Hok Hsmall Hn Eb Ef)
    as (tr & st & Ef' & Hp & Ho & Hs & Hl & Hv).
  rewrite length_seq, Hs0 in *.
  exists env, st0, tr, st. eexists.
  split; [exact Es|].
  unfold main. rewrite Es, bind_lift_ok. cbn [fst snd].
  split; [exact Ef'|]. split; [exact Hp|]. split; [exact Ho|].
  split; [exact Hs|]. split; [exact Hl|exact Hv].
Qed.

End IdleFacts.

(** ** Concrete runs for the further properties *)

Section FurtherWitnesses.
Local Existing Instance Binary32.scalar.
Local Existing Instance Bench.model.
Local Existing Instance Bench.jax.
Local Existing Instance Bench.rng.

Lemma random_split_covers_dataset_witness :
  @randperm_spec nat Bench.rng /\ 2 + 3 = 5 /\
  exists train test g',
    Torch.random_split 5 [2; 3] 3 = (Ok [train; test], g') /\
    Permutation (train ++ test) (seq 0 5).
Proof.
  split; [exact bench_rng_spec|]. split; [reflexivity|].
  apply (random_split_covers_dataset 5 2 3 3 bench_rng_spec). reflexivity.
Defined.

Lemma evaluation_pass_visits_all_witness :
  0 < 3 /\
  exists loader,
    Torch.DataLoader_new (seq 10 7) 3 false false = Ok loader /\
    concat (fst (Torch.iter_batches loader 2)) = seq 0 (length (seq 10 7)) /\
    Forall (fun b => 0 < length b <= 3) (fst (Torch.iter_batches loader 2)).
Proof.
  split; [lia|].
  apply (evaluation_pass_visits_all_in_order (seq 10 7) 3 2). lia.
Defined.

Lemma training_pass_drops_remainder_witness :
  @randperm_spec nat Bench.rng /\ 0 < 3 /\
  exists loader dropped,
    Torch.DataLoader_new (seq 10 7) 3 true true = Ok loader /\
    Permutation (concat (fst (Torch.iter_batches loader 2)) ++ dropped)
                (seq 0 (length (seq 10 7))) /\
    length dropped = length (seq 10 7) mod 3 /\
    NoDup (concat (fst (Torch.iter_batches loader 2))).
Proof.
  split; [exact bench_rng_spec|]. split; [lia|].
  apply (training_pass_drops_remainder (seq 10 7) 3 2 bench_rng_spec). lia.
Defined.

Lemma run_completes_witness :
  @randperm_spec nat Bench.rng /\
  @apply_shape _ _ _ Bench.model /\
  n_train Runs.S1 + n_test Runs.S1 = length Runs.data1 /\
  0 < batch_size Runs.S1 /\ 0 < n_train Runs.S1 /\ 0 < n_test Runs.S1 /\
  exists tr st,
    main Runs.S1 Runs.data1 0 = (tr, Ok st) /\
    step st = n_epochs Runs.S1 * (n_train Runs.S1 / batch_size Runs.S1) /\
    map snd (scalars "loss" tr)
      = seq 0 (n_epochs Runs.S1 * (n_train Runs.S1 / batch_size Runs.S1)) /\
    map snd (scalars "val_loss" tr)
      = map (fun j => (j + 1) * (n_train Runs.S1 / batch_size Runs.S1))
            (seq 0 (n_epochs Runs.S1)).
Proof.
  split; [exact bench_rng_spec|]. split; [exact bench_model_shape|].
  split; [reflexivity|]. split; [simpl; lia|].
  split; [simpl; lia|]. split; [simpl; lia|].
  apply (run_completes_with_consecutive_steps
           Runs.S1 Runs.data1 0 bench_rng_spec bench_model_shape);
    simpl; lia.
Defined.

Lemma optimizer_count_witness :
  @randperm_spec nat Bench.rng /\
  @apply_shape _ _ _ Bench.model /\
  n_train Runs.S1 + n_test Runs.S1 = length Runs.data1 /\
  0 < batch_size Runs.S1 /\ 0 < n_train Runs.S1 /\ 0 < n_test Runs.S1 /\
  exists tr st,
    main Runs.S1 Runs.data1 0 = (tr, Ok st) /\
    Optax.count (opt_state st)
      = Z.min (Z.of_nat (n_epochs Runs.S1
                         * (n_train Runs.S1 / batch_size Runs.S1)))
              2147483647.
Proof.
  split; [exact bench_rng_spec|]. split; [exact bench_model_shape|].
  split; [reflexivity|]. split; [simpl; lia|].
  split; [simpl; lia|]. split; [simpl; lia|].
  apply (optimizer_count_is_saturating_step_count
           Runs.S1 Runs.data1 0 bench_rng_spec bench_model_shape);
    simpl; lia.
Defined.

Lemma run_starts_iff_witness :
  @randperm_spec nat Bench.rng /\
  ((exists env st0, setup Runs.S1 Runs.data1 0 = Ok (env, st0)) <->
   (n_train Runs.S1 + n_test Runs.S1 = length Runs.data1 /\
    0 < batch_size Runs.S1 /\ 0 < n_train Runs.S1)) /\
  ((forall env st0, setup Runs.S1 Runs.data1 0 <> Ok (env, st0)) ->
   exists e, main Runs.S1 Runs.data1 0 = ([], Raise e)).
Proof.
  split; [exact bench_rng_spec|].
  exact (run_starts_iff_settings_fit Runs.S1 Runs.data1 0 bench_rng_spec).
Defined.

Lemma zero_batch_size_witness :
  batch_size Runs.S6 = 0 /\
  main Runs.S6 Runs.data1 0 = ([], Raise ValueError).
Proof.
  split; [reflexivity|].
  apply (zero_batch_size_is_refused Runs.S6 Runs.data1 0). reflexivity.
Defined.

Lemma epoch_images_witness :
  @randperm_spec nat Bench.rng /\
  @apply_shape _ _ _ Bench.model /\
  setup Runs.S1 Runs.data1 0 = Ok (Runs.env1, Bench.start 1) /\
  0 < n_test Runs.S1 /\
  exists st1 st2 xt yt pt xv yv pv mid,
    snd (train_pass Runs.data1 Runs.env1 (Bench.start 1)) = Ok st1 /\
    epoch_body Runs.data1 Runs.env1 0 (Bench.start 1) =
      (LogImage "Training image"
                (step (Bench.start (F:=Binary32.float32) 1)) xt yt pt
         :: mid ++ [LogImage "Validation image" (step st1) xv yv pv],
       Ok st2) /\
    Forall is_scalar mid /\
    getitem0 (model_apply (model_params (Bench.start 1)) (expand_dims xt))
      = Ok pt /\
    getitem0 (model_apply (model_params st1) (expand_dims xv)) = Ok pv /\
    model_params st2 = model_params st1.
Proof.
  assert (Hs : setup Runs.S1 Runs.data1 0 = Ok (Runs.env1, Bench.start 1))
    by reflexivity.
  split; [exact bench_rng_spec|]. split; [exact bench_model_shape|].
  split; [exact Hs|]. split; [simpl; lia|].
  apply (epoch_images_frame_the_epoch
           Runs.S1 Runs.data1 0 Runs.env1 (Bench.start 1) 0 (Bench.start 1)
           bench_rng_spec bench_model_shape Hs).
  simpl. lia.
Defined.

Lemma run_without_any_batch_witness :
  @randperm_spec nat Bench.rng /\
  @apply_shape _ _ _ Bench.model /\
  n_train Runs.S3 = length Runs.data3 /\ n_test Runs.S3 = 0 /\
  0 < n_train Runs.S3 /\ n_train Runs.S3 < batch_size Runs.S3 /\
  0 < n_epochs Runs.S3 /\
  exists xt yt pt,
    main Runs.S3 Runs.data3 0 =
      ([LogImage "Training image" 0 xt yt pt], Raise UnboundLocalError).
Proof.
  split; [exact bench_rng_spec|]. split; [exact bench_model_shape|].
  split; [reflexivity|]. split; [reflexivity|].
  split; [simpl; lia|]. split; [simpl; lia|]. split; [simpl; lia|].
  apply (run_without_any_batch_raises_unbound
           Runs.S3 Runs.data3 0 bench_rng_spec bench_model_shape);
    try reflexivity; simpl; lia.
Defined.

Lemma run_without_evaluation_witness :
  @randperm_spec nat Bench.rng /\
  @apply_shape _ _ _ Bench.model /\
  n_train Runs.S2 = length Runs.data2 /\ n_test Runs.S2 = 0 /\
  0 < batch_size Runs.S2 /\ batch_size Runs.S2 <= n_train Runs.S2 /\
  0 < n_epochs Runs.S2 /\
  exists ls l xt yt pt,
    length (ls ++ [l]) = n_train Runs.S2 / batch_size Runs.S2 /\
    main Runs.S2 Runs.data2 0 =
      (LogImage "Training image" 0 xt yt pt
         :: loss_events (ls ++ [l]) 0
         ++ [LogScalar "val_loss" (fdiv l (of_int 0))
                       (n_train Runs.S2 / batch_size Runs.S2)],
       Raise IndexError).
Proof.
  split; [exact bench_rng_spec|]. split; [exact bench_model_shape|].
  split; [reflexivity|]. split; [reflexivity|].
  split; [simpl; lia|]. split; [simpl; lia|]. split; [simpl; lia|].
  apply (run_without_evaluation_stops_in_first_epoch
           Runs.S2 Runs.data2 0 bench_rng_spec bench_model_shape);
    try reflexivity; simpl; lia.
Defined.

Lemma undersized_training_subset_witness :
  @randperm_spec nat Bench.rng /\
  @apply_shape _ _ _ Bench.model /\
  n_train Runs.S5 + n_test Runs.S5 = length Runs.data5 /\
  0 < n_train Runs.S5 /\ n_train Runs.S5 < batch_size Runs.S5 /\
  0 < n_test Runs.S5 /\
  exists env st0 tr st v,
    setup Runs.S5 Runs.data5 0 = Ok (env, st0) /\
    main Runs.S5 Runs.data5 0 = (tr, Ok st) /\
    model_params st = model_params st0 /\
    opt_state st = opt_state st0 /\
    step st = 0 /\
    scalars "loss" tr = [] /\
    scalars "val_loss" tr = repeat (v, 0) (n_epochs Runs.S5).
Proof.
  split; [exact bench_rng_spec|]. split; [exact bench_model_shape|].
  split; [reflexivity|]. split; [simpl; lia|].
  split; [simpl; lia|]. split; [simpl; lia|].
  apply (undersized_training_subset_never_trains
           Runs.S5 Runs.data5 0 bench_rng_spec bench_model_shape);
    try reflexivity; simpl; lia.
Defined.

(** The run of one training sample and two evaluation samples, two epochs:
    two identical ["val_loss"] reports at step 0 and no ["loss"] report. *)
Example undersized_run :
  scalars "loss" (fst (main Runs.S5 Runs.data5 0)) = [] /\
  map snd (scalars "val_loss" (fst (main Runs.S5 Runs.data5 0))) = [0; 0].
Proof. split; vm_compute; reflexivity. Qed.

End FurtherWitnesses.

(** ** How many batches an evaluation pass has *)

Section CeilingFacts.

Variable B : nat.
Hypothesis B_pos : 0 < B.

(** Without [drop_last] there are [ceil (total / B)] batches. *)
Lemma batch_sampler_loop_keep_count (sampler batch : list nat) :
  length batch < B ->
  length (Torch.batch_sampler_loop B false sampler batch)
  = (length batch + length sampler + B - 1) / B.
Proof.
  revert batch. induction sampler as [|idx rest IH]; intros batch Hlt; simpl.
  - rewrite Nat.add_0_r.
    destruct (Nat.ltb_spec 0 (length batch)) as [Hpos|Hz]; simpl.
    + apply (Nat.div_unique _ _ 1 (length batch - 1)); lia.
    + symmetry. apply Nat.div_small. lia.
  - rewrite length_app. simpl length.
    destruct (Nat.eqb_spec (length batch + 1) B) as [E|NE].
    + simpl. rewrite (IH [] B_pos). simpl length.
      replace (length batch + S (length rest) + B - 1)
        with (B + (0 + length rest + B - 1)) by lia.
      now rewrite (step_div B B_pos).
    + rewrite IH by (rewrite length_app; simpl; lia).
      rewrite length_app. simpl length. f_equal. lia.
Qed.

End CeilingFacts.

Section ValidationCountFacts.
Context {F Field Idx G : Type}.
Context `{Scalar F} `{Model F Field Idx} `{Jax F Field Idx} `{Rng G}.

Variable S : Settings F.
Variable dataset : list (Field * Field).

(** X13.  A validation pass over a non-empty evaluation subset evaluates the loss
    on [ceil (n_test / batch_size)] batches: [val_steps] holds that number
    when the pass ends, and it is the divisor of the reported ["val_loss"],
    not the number of samples. *)
Theorem validation_pass_divides_by_batch_count
        (g : G) (env : Env F) (st0 st : Locals F Idx G) :
  randperm_spec ->
  setup S dataset g = Ok (env, st0) ->
  0 < n_test S ->
  exists l st1,
    validation_pass dataset env st =
      ([LogScalar "val_loss"
                  (fdiv l (of_int (Z.of_nat
                                     ((n_test S + batch_size S - 1)
                                      / batch_size S))))
                  (step st)], Ok st1) /\
    val_steps st1 = (n_test S + batch_size S - 1) / batch_size S /\
    lossval st1 = Some l.
Proof.
  intros Hspec Hsetup Hn.
  destruct (setup_env_ok S dataset g env st0 Hspec Hsetup) as (Hok & _).
  pose proof Hok as (_ & _ & _ & _ & _ & HB & _).
  assert (Hcount : length (val_batches S)
                   = (n_test S + batch_size S - 1) / batch_size S).
  { unfold val_batches, Torch.batch_sampler.
    rewrite (batch_sampler_loop_keep_count (batch_size S) HB _ [] HB).
    simpl. now rewrite length_seq. }
  destruct (validation_pass_spec S dataset env st Hok)
    as (st1 & _ & Evp & _ & _ & Hs & _ & Hvs & _ & Hlast).
  destruct (val_batches_last S HB Hn) as (front & b & Eb).
  destruct (val_batches_fetch_ok S dataset env b Hok) as (x & y & Ef).
  { rewrite Eb. apply in_or_app. right. now left. }
  pose proof (Hlast front b x y Eb Ef) as Hlv.
  rewrite (report_then_ret st1 _ Hlv), Hvs, Hs, Hcount in Evp.
  exists (loss_fn (model_params st) x y), st1.
  split; [exact Evp|]. split; [now rewrite Hvs|exact Hlv].
Qed.

End ValidationCountFacts.

Section CeilingWitness.
Local Existing Instance Binary32.scalar.
Local Existing Instance Bench.model.
Local Existing Instance Bench.jax.
Local Existing Instance Bench.rng.

Lemma validation_pass_divides_witness :
  @randperm_spec nat Bench.rng /\
  setup Runs.S1 Runs.data1 0 = Ok (Runs.env1, Bench.start 1) /\
  0 < n_test Runs.S1 /\
  exists l st1,
    validation_pass Runs.data1 Runs.env1 (Bench.start 1) =
      ([LogScalar "val_loss"
                  (fdiv l (of_int (Z.of_nat
                                     ((n_test Runs.S1 + batch_size Runs.S1 - 1)
                                      / batch_size Runs.S1))))
                  (step (Bench.start (F:=Binary32.float32) 1))], Ok st1) /\
    val_steps st1
      = (n_test Runs.S1 + batch_size Runs.S1 - 1) / batch_size Runs.S1 /\
    lossval st1 = Some l.
Proof.
  assert (Hs : setup Runs.S1 Runs.data1 0 = Ok (Runs.env1, Bench.start 1))
    by reflexivity.
  split; [exact bench_rng_spec|]. split; [exact Hs|]. split; [simpl; lia|].
  apply (validation_pass_divides_by_batch_count
           Runs.S1 Runs.data1 0 Runs.env1 (Bench.start 1) (Bench.start 1)
           bench_rng_spec Hs).
  simpl. lia.
Defined.

End CeilingWitness.

(** ** Concrete update steps on a zero gradient *)

Section DecayWitnesses.
Local Existing Instance Binary32.scalar.
Local Existing Instance Bench.model.
Local Existing Instance Bench.jax.

Lemma zero_gradient_step_witness :
  (0 <= Optax.count (Optax.init (fun _ : unit => fone)))%Z /\
  (forall i, Optax.mu (Optax.init (fun _ : unit => fone)) i = fzero) /\
  (forall i, Optax.nu (Optax.init (fun _ : unit => fone)) i = fzero) /\
  (forall i,
      Binary32.is_zero
        (grad (fun p => loss_fn p [fone] [fone]) (fun _ : unit => fone) i)
      = true) /\
  fst (Optax.scale_by_adam
         (Optax.adamw (decimal 1 10) (decimal 1 2))
         (grad (fun p => loss_fn p [fone] [fone]) (fun _ : unit => fone))
         (Optax.init (fun _ : unit => fone))) tt = fzero /\
  fst (fst (update (Optax.adamw (decimal 1 10) (decimal 1 2))
                   (fun _ : unit => fone)
                   (Optax.init (fun _ : unit => fone)) [fone] [fone])) tt
  = fadd fone (fmul (fneg (decimal 1 10))
                    (fadd fzero (fmul (decimal 1 2) fone))).
Proof.
  assert (Hg : forall i : unit,
             Binary32.is_zero
               (grad (fun p => loss_fn p [fone] [fone])
                     (fun _ : unit => fone) i) = true).
  { intros []. vm_compute. reflexivity. }
  split; [apply Z.le_refl|]. split; [reflexivity|]. split; [reflexivity|].
  split; [exact Hg|].
  apply (zero_gradient_step_applies_decay_alone
           (decimal 1 10) (decimal 1 2) (fun _ : unit => fone)
           (Optax.init (fun _ : unit => fone)) [fone] [fone] tt);
    [apply Z.le_refl|reflexivity|reflexivity|exact Hg].
Defined.

(** C6, as stated, fails in the arithmetic of the arrays: at the script's
    own learning rate and weight decay, a step from the initial optimizer
    state on a zero gradient leaves the parameter 1.0 as it is, and
    [1 - learning_rate * weight_decay] is 1.0 itself: nothing shrinks. *)
Lemma decay_below_resolution_counterexample :
  Optax.mu (Optax.init (fun _ : unit => fone)) tt = fzero /\
  Optax.nu (Optax.init (fun _ : unit => fone)) tt = fzero /\
  grad (fun p => loss_fn p [fone] [fone]) (fun _ : unit => fone) tt
  = fzero /\
  fst (fst (update (Optax.adamw (learning_rate SETTINGS)
                                (weight_decay SETTINGS))
                   (fun _ : unit => fone)
                   (Optax.init (fun _ : unit => fone)) [fone] [fone])) tt
  = fone /\
  fsub fone (fmul (learning_rate SETTINGS) (weight_decay SETTINGS)) = fone.
Proof. repeat split; vm_compute; reflexivity. Qed.

(** With a learning rate of 0.1 and a weight decay of 0.5 the same step does
    shrink the parameter, from 1.0 to 0.95 (as rounded). *)
Example decay_above_resolution :
  fst (fst (update (Optax.adamw (decimal 1 10) (decimal 1 2))
                   (fun _ : unit => fone)
                   (Optax.init (fun _ : unit => fone)) [fone] [fone])) tt
  = S754_finite false 15938355 (-24).
Proof. vm_compute. reflexivity. Qed.

End DecayWitnesses.
